(** * Metrics service over an embedded analytical store: model of [main.go]

    The Go program keeps its data in a DuckDB store and computes every metric
    with a SQL statement.  The store is modelled as a record of tables (lists
    of rows), each SQL statement of the program as a function over those
    tables built from a small relational vocabulary ([GROUP_BY], [ORDER_BY],
    [RANK_OVER], [AVG], [ROUND2], ...), and each Go method as a function that
    runs its statement, scans the rows and threads the error value.

    Conventions.
    - Go [int] and SQL [INTEGER]/[BIGINT] values are integers of [Z].
    - A SQL [DOUBLE] / Go [float64] value is the rational of [Q] that it
      stands for, and an operation on DOUBLEs is the exact operation followed
      by rounding to the nearest binary64 value, ties to even ([to_double]).
      Overflow of the exponent is outside the model, and so are integers
      beyond 2^53 on their way into a DOUBLE.
    - SQL [TIMESTAMP] values are microseconds since 1970-01-01 00:00:00 UTC,
      SQL [DATE] values are days since 1970-01-01.
    - A Go result [(v, err)] is a value of [result]; a bare [error] is an
      [option string] ([None] is [nil]). *)

From Stdlib Require Import ZArith QArith Qround Qpower List String Ascii Bool.
From Stdlib Require Import Lia Lqa.
From Stdlib Require Import Sorting.Sorted Sorting.Permutation.
From Stdlib Require Import DecimalString DecimalPos DecimalZ.
Import ListNotations.

Local Open Scope string_scope.
Local Open Scope Z_scope.

(** ** Results and errors *)

Inductive result (E A : Type) : Type :=
| Ok (a : A)
| Err (e : E).
Arguments Ok {E A} a.
Arguments Err {E A} e.

(** ** [strconv]: decimal integers *)

Inductive NumError : Type := ErrSyntax | ErrRange.

Definition minInt : Z := - 2 ^ 63.
Definition maxInt : Z := 2 ^ 63 - 1.

(** [strconv.Itoa]. *)
Definition Itoa (n : Z) : string := NilZero.string_of_int (Z.to_int n).

(** The digits of [strconv.Atoi]'s argument once the sign is gone: at least
    one character, all of them in ['0'..'9']. *)
Definition parse_digits (s : string) : option Z :=
  option_map Z.of_uint (NilZero.uint_of_string s).

(** The value that [strconv.Atoi] returns for the digits it has read: it has
    to fit the 64-bit [int]. *)
Definition in_range (o : option Z) : result NumError Z :=
  match o with
  | None => Err ErrSyntax
  | Some n => if (minInt <=? n) && (n <=? maxInt) then Ok n else Err ErrRange
  end.

(** [strconv.Atoi]: an optional sign, then decimal digits. *)
Definition Atoi (s : string) : result NumError Z :=
  in_range
    match s with
    | String "-" rest => option_map Z.opp (parse_digits rest)
    | String "+" rest => parse_digits rest
    | _ => parse_digits s
    end.

(** ** Numbers of the SQL statements *)

(** The integer nearest to [x], halves to the even one. *)
Definition round_half_even (x : Q) : Z :=
  let f := Qfloor x in
  match (x - inject_Z f ?= 1 # 2)%Q with
  | Lt => f
  | Gt => f + 1
  | Eq => if Z.even f then f else f + 1
  end.

(** For [0 < x], the exponent [e] with [2 ^ e <= x < 2 ^ (e + 1)]. *)
Definition binade (x : Q) : Z :=
  let e := Z.log2 (Qnum x) - Z.log2 (Z.pos (Qden x)) in
  if Qle_bool (2 ^ e) x then e else e - 1.

(** For [0 < x], the binary64 value nearest to [x]: 53 significant bits,
    the last of them worth [2 ^ (e - 52)], and no exponent below -1022. *)
Definition nearest_double (x : Q) : Q :=
  let ulp := (2 ^ (Z.max (binade x) (-1022) - 52))%Q in
  (inject_Z (round_half_even (x / ulp)) * ulp)%Q.

(** The DOUBLE that an exact result is rounded to. *)
Definition to_double (x : Q) : Q :=
  Qred match (x ?= 0)%Q with
       | Eq => 0
       | Gt => nearest_double x
       | Lt => - nearest_double (- x)
       end.

(** C [round]: the nearest integer, halves away from zero. *)
Definition round_half_away (x : Q) : Z :=
  if Qle_bool 0 x then Qfloor (x + (1 # 2)) else - Qfloor (- x + (1 # 2)).

(** [ROUND(x, 2)] on a DOUBLE: [round(x * 100.0) / 100.0], with a DOUBLE
    product and a DOUBLE quotient.  The argument [x] is given as the exact
    quotient of the two integers that the statement divides; the DOUBLE that
    the engine holds for it is [to_double x]. *)
Definition ROUND2 (x : Q) : Q :=
  to_double
    (inject_Z (round_half_away (to_double (to_double x * 100))) / 100).

Definition SUM (l : list Z) : Z := fold_right Z.add 0 l.

Definition COUNT {A : Type} (l : list A) : Z := Z.of_nat (List.length l).

(** The non-NULL values of a column. *)
Fixpoint non_null (l : list (option Z)) : list Z :=
  match l with
  | [] => []
  | Some v :: rest => v :: non_null rest
  | None :: rest => non_null rest
  end.

(** [AVG] ignores NULL inputs and is NULL ([None]) when no input is left.
    The quotient of the sum by the count is given exactly; in the statements
    it is the argument of [ROUND2], which takes the DOUBLE nearest to it. *)
Definition AVG (l : list (option Z)) : option Q :=
  match non_null l with
  | [] => None
  | v :: vs => Some (inject_Z (SUM (v :: vs)) / inject_Z (COUNT (v :: vs)))%Q
  end.

(** ** Calendar *)

Definition usec_per_day : Z := 86400000000.

(** [DATE_TRUNC('day', ts)], as the day number. *)
Definition day_of (ts : Z) : Z := ts / usec_per_day.

(** Midnight of a day, as a timestamp. *)
Definition midnight (day : Z) : Z := day * usec_per_day.

Definition DATE_TRUNC_day (ts : Z) : Z := midnight (day_of ts).

(** Year, month and day of the month of a day number in the proleptic
    Gregorian calendar. *)
Definition civil_from_days (day : Z) : Z * Z * Z :=
  let z := day + 719468 in
  let era := z / 146097 in
  let doe := z - era * 146097 in
  let yoe := (doe - doe / 1460 + doe / 36524 - doe / 146096) / 365 in
  let doy := doe - (365 * yoe + yoe / 4 - yoe / 100) in
  let mp := (5 * doy + 2) / 153 in
  let d := doy - (153 * mp + 2) / 5 + 1 in
  let m := if mp <? 10 then mp + 3 else mp - 9 in
  (yoe + era * 400 + (if m <=? 2 then 1 else 0), m, d).

Fixpoint zeros (n : nat) : string :=
  match n with
  | O => ""
  | S n' => String "0" (zeros n')
  end.

(** An integer printed with at least [width] digits, as [time.Format] prints
    the fields of a date. *)
Definition appendInt (x : Z) (width : nat) : string :=
  let digits := Itoa (Z.abs x) in
  (if x <? 0 then "-" else "") ++ zeros (width - String.length digits) ++ digits.

(** [t.Format("2006-01-02")] for the UTC time [ts]. *)
Definition Format_date (ts : Z) : string :=
  let '(y, m, d) := civil_from_days (day_of ts) in
  appendInt y 4 ++ "-" ++ appendInt m 2 ++ "-" ++ appendInt d 2.

(** ** Domain models *)

Module Deployment.
Record t : Type := mk {
  ID : string;
  Team : string;
  Service : string;
  Timestamp : Z;
  Duration : Z;
  Status : string;
  Environment : string;
  CommitHash : string
}.
End Deployment.

Module TeamMetrics.
Record t : Type := mk {
  Team : string;
  TotalDeployments : Z;
  SuccessfulDeployments : Z;
  SuccessRate : Q;
  AvgDurationMinutes : Q;
  DeploymentFrequency : Q
}.
End TeamMetrics.

Module DailyMetrics.
Record t : Type := mk {
  Date : string;
  Team : string;
  Deployments : Z;
  Successful : Z;
  AvgDuration : Q
}.
End DailyMetrics.

(** [status = 'success'] *)
Definition is_success (d : Deployment.t) : bool :=
  String.eqb (Deployment.Status d) "success".

(** [CASE WHEN status = 'success' THEN 1 ELSE 0 END] *)
Definition success_flag (d : Deployment.t) : Z :=
  if is_success d then 1 else 0.

(** ** Relational vocabulary of the statements *)

Section Grouping.
Context {R K : Type}.
Variable K_dec : forall x y : K, {x = y} + {x <> y}.
Variable key : R -> K.

Definition has_key (k : K) (r : R) : bool :=
  if K_dec (key r) k then true else false.

(** [GROUP BY key]: one group for every distinct key of the input, holding
    the input rows of that key in their order. *)
Definition GROUP_BY (rows : list R) : list (K * list R) :=
  map (fun k => (k, filter (has_key k) rows)) (nodup K_dec (map key rows)).
End Grouping.

Section Ordering.
Context {R : Type}.
(** [before a b]: the ordering lets [a] stand in front of [b]. *)
Variable before : R -> R -> bool.

Fixpoint insert_row (r : R) (sorted : list R) : list R :=
  match sorted with
  | [] => [r]
  | x :: rest => if before r x then r :: x :: rest else x :: insert_row r rest
  end.

(** [ORDER BY]: rows that the ordering does not tell apart keep the order of
    the input. *)
Definition ORDER_BY (rows : list R) : list R := fold_right insert_row [] rows.
End Ordering.

Section Window.
Context {R V : Type}.
Variable leb : V -> V -> bool.
Variable val : R -> V.

(** [ORDER BY val DESC] *)
Definition desc (a b : R) : bool := leb (val b) (val a).

Definition peer (a b : V) : bool := leb a b && leb b a.

(** The ranking functions walk the ordered partition.  [n] is the number of
    the current row, [prev] the value and the rank of the row before it. *)
Fixpoint rank_rows (n : Z) (prev : option (V * Z)) (rows : list R)
  : list (R * Z) :=
  match rows with
  | [] => []
  | r :: rest =>
      let k := match prev with
               | Some (pv, pk) => if peer (val r) pv then pk else n
               | None => n
               end in
      (r, k) :: rank_rows (n + 1) (Some (val r, k)) rest
  end.

(** [RANK() OVER (ORDER BY val DESC)]: every row with its rank. *)
Definition RANK_OVER (rows : list R) : list (R * Z) :=
  rank_rows 1 None (ORDER_BY desc rows).

(** The dense rank of the specification: a row that is no peer of the row
    before it takes the rank that follows immediately. *)
Fixpoint dense_rank_rows (prev : option (V * Z)) (rows : list R)
  : list (R * Z) :=
  match rows with
  | [] => []
  | r :: rest =>
      let k := match prev with
               | Some (pv, pk) => if peer (val r) pv then pk else pk + 1
               | None => 1
               end in
      (r, k) :: dense_rank_rows (Some (val r, k)) rest
  end.

Definition DENSE_RANK_OVER (rows : list R) : list (R * Z) :=
  dense_rank_rows None (ORDER_BY desc rows).

(** The number of rows whose value is greater than [v]. *)
Definition ahead (v : V) (rows : list R) : Z :=
  COUNT (filter (fun x => negb (leb (val x) v)) rows).
End Window.

(** ** The store *)

(** Rows of the materialized table [daily_team_summary]. *)
Record DailyTeamSummary : Type := {
  dts_date : Z;
  dts_team : string;
  dts_total_deployments : Z;
  dts_successful_deployments : Z;
  dts_avg_duration_minutes : option Q
}.

(** Rows of the materialized table [team_rankings]. *)
Record TeamRanking : Type := {
  tr_team : string;
  tr_success_rank : Z;
  tr_velocity_rank : Z
}.

(** The DuckDB store behind [*sql.DB], as far as the program reads and writes
    it.  A derived table is [None] until a statement has created it.
    [current_date] is the engine's [CURRENT_DATE].  Whether the engine runs a
    statement or refuses it (I/O error, closed handle, a limit of the engine)
    is not decided by the program: [verdicts] lists what the engine answers to
    the statements to come, [None] for a statement that runs, [Some msg] for
    one that fails with [msg]; past the end of the list every statement
    runs. *)
Record DB : Type := {
  deployments : list Deployment.t;
  daily_team_summary : option (list DailyTeamSummary);
  team_rankings : option (list TeamRanking);
  current_date : Z;
  verdicts : list (option string)
}.

Definition verdict (d : DB) : option string := hd None (verdicts d).

Definition answered (d : DB) : DB :=
  {| deployments := deployments d;
     daily_team_summary := daily_team_summary d;
     team_rankings := team_rankings d;
     current_date := current_date d;
     verdicts := tl (verdicts d) |}.

Record MetricsService : Type := { db : DB }.

Definition key_dec (x y : Z * string) : {x = y} + {x <> y}.
Proof. decide equality; [apply string_dec | apply Z.eq_dec]. Defined.

(** [db.Query]: the rows of a SELECT, or the engine's error. *)
Definition DB_Query {A : Type} (d : DB) (select : DB -> list A)
  : result string (list A) :=
  match verdict d with
  | Some e => Err e
  | None => Ok (select d)
  end.

(** The statements that the program executes on its derived tables. *)
Inductive Statement : Type :=
| CreateOrReplace_daily_team_summary
| CreateOrReplace_team_rankings.

(** ** [rows.Scan] *)

Definition dquote : string := String "034"%char "".

(** [database/sql] refuses to store a NULL in a destination of a numeric Go
    type. *)
Definition null_scan_error (index : Z) (name kind : string) : string :=
  "sql: Scan error on column index " ++ Itoa index ++ ", name " ++ dquote
  ++ name ++ dquote ++ ": converting NULL to " ++ kind ++ " is unsupported".

Definition Scan_float64 (index : Z) (name : string) (v : option Q)
  : result string Q :=
  match v with
  | Some x => Ok x
  | None => Err (null_scan_error index name "float64")
  end.

(** The loop [for rows.Next() { ...Scan...; metrics = append(metrics, m) }]
    with its early return on a scan error. *)
Fixpoint scan_rows {Row T : Type} (scan : Row -> result string T)
  (rows : list Row) (metrics : list T) : result string (list T) :=
  match rows with
  | [] => Ok metrics
  | r :: rest =>
      match scan r with
      | Err e => Err ("scan failed: " ++ e)
      | Ok m => scan_rows scan rest (metrics ++ [m])%list
      end
  end.

(** ** Business logic: [GetTeamMetrics] *)

(** A row of the SELECT of [GetTeamMetrics].  [COUNT] and [SUM] over the
    rows of a group are never NULL; the average over the successful rows is
    NULL when the group has none. *)
Record TeamMetricsRow : Type := {
  team : string;
  total_deployments : Z;
  successful_deployments : Z;
  success_rate : Q;
  avg_duration : option Q;
  deployments_per_day : Q
}.

(** [CASE WHEN status = 'success' THEN duration_minutes END] *)
Definition success_duration (d : Deployment.t) : option Z :=
  if is_success d then Some (Deployment.Duration d) else None.

Definition team_metrics_row (g : string * list Deployment.t) : TeamMetricsRow :=
  let rows := snd g in
  {| team := fst g;
     total_deployments := COUNT rows;
     successful_deployments := SUM (map success_flag rows);
     success_rate :=
       ROUND2 (100 * inject_Z (SUM (map success_flag rows))
               / inject_Z (COUNT rows))%Q;
     avg_duration := option_map ROUND2 (AVG (map success_duration rows));
     deployments_per_day := ROUND2 (inject_Z (COUNT rows) * 1 / 7)%Q |}.

(** [SELECT ... FROM deployments GROUP BY team ORDER BY success_rate DESC] *)
Definition select_team_metrics (d : DB) : list TeamMetricsRow :=
  ORDER_BY (desc Qle_bool success_rate)
    (map team_metrics_row
       (GROUP_BY string_dec Deployment.Team (deployments d))).

Definition Scan_TeamMetrics (r : TeamMetricsRow) : result string TeamMetrics.t :=
  match Scan_float64 4 "avg_duration" (avg_duration r) with
  | Err e => Err e
  | Ok avg =>
      Ok {| TeamMetrics.Team := team r;
            TeamMetrics.TotalDeployments := total_deployments r;
            TeamMetrics.SuccessfulDeployments := successful_deployments r;
            TeamMetrics.SuccessRate := success_rate r;
            TeamMetrics.AvgDurationMinutes := avg;
            TeamMetrics.DeploymentFrequency := deployments_per_day r |}
  end.

Definition GetTeamMetrics (ms : MetricsService)
  : result string (list TeamMetrics.t) :=
  match DB_Query (db ms) select_team_metrics with
  | Err e => Err ("query failed: " ++ e)
  | Ok rows => scan_rows Scan_TeamMetrics rows []
  end.

(** ** Business logic: [GetDailyMetrics] *)

Record DailyMetricsRow : Type := {
  date : Z;
  daily_team : string;
  daily_deployments : Z;
  daily_successful : Z;
  daily_avg_duration : option Q
}.

(** [CURRENT_DATE - INTERVAL 'days days']: midnight of the day that lies
    [days] days before the current date.  [days] reaches the statement as
    the decimal text of [strconv.Itoa], which the engine reads back as the
    same integer.  An interval or a date beyond the range of the engine
    makes the engine refuse the statement: such a call is one with a
    verdict [Some msg], and [window_start] is what a statement that runs
    compares with. *)
Definition window_start (d : DB) (days : Z) : Z :=
  midnight (current_date d - days).

(** [($1 IS NULL OR team = $1)] *)
Definition team_matches (teamParam : option string) (r : Deployment.t) : bool :=
  match teamParam with
  | None => true
  | Some t => String.eqb (Deployment.Team r) t
  end.

(** The WHERE clause of the daily statement. *)
Definition in_window (d : DB) (teamParam : option string) (days : Z)
  (r : Deployment.t) : bool :=
  team_matches teamParam r && (window_start d days <=? Deployment.Timestamp r).

Definition day_team (r : Deployment.t) : Z * string :=
  (DATE_TRUNC_day (Deployment.Timestamp r), Deployment.Team r).

Definition daily_metrics_row (g : (Z * string) * list Deployment.t)
  : DailyMetricsRow :=
  let rows := snd g in
  {| date := fst (fst g);
     daily_team := snd (fst g);
     daily_deployments := COUNT rows;
     daily_successful := SUM (map success_flag rows);
     daily_avg_duration :=
       option_map ROUND2
         (AVG (map (fun r => Some (Deployment.Duration r)) rows)) |}.

(** [ORDER BY date DESC, team] *)
Definition date_desc_team (a b : DailyMetricsRow) : bool :=
  (date b <? date a)
  || ((date a =? date b) && String.leb (daily_team a) (daily_team b)).

Definition select_daily_metrics (teamParam : option string) (days : Z) (d : DB)
  : list DailyMetricsRow :=
  ORDER_BY date_desc_team
    (map daily_metrics_row
       (GROUP_BY key_dec day_team
          (filter (in_window d teamParam days) (deployments d)))).

Definition Scan_DailyMetrics (r : DailyMetricsRow) : result string DailyMetrics.t :=
  match Scan_float64 4 "avg_duration" (daily_avg_duration r) with
  | Err e => Err e
  | Ok avg =>
      Ok {| DailyMetrics.Date := Format_date (date r);
            DailyMetrics.Team := daily_team r;
            DailyMetrics.Deployments := daily_deployments r;
            DailyMetrics.Successful := daily_successful r;
            DailyMetrics.AvgDuration := avg |}
  end.

Definition GetDailyMetrics (ms : MetricsService) (team : string) (days : Z)
  : result string (list DailyMetrics.t) :=
  let teamParam := if String.eqb team "" then None else Some team in
  match DB_Query (db ms) (select_daily_metrics teamParam days) with
  | Err e => Err ("query failed: " ++ e)
  | Ok rows => scan_rows Scan_DailyMetrics rows []
  end.

(** ** The aggregation engine: [aggregateMetrics] *)

Definition daily_team_summary_row (g : (Z * string) * list Deployment.t)
  : DailyTeamSummary :=
  let rows := snd g in
  {| dts_date := fst (fst g);
     dts_team := snd (fst g);
     dts_total_deployments := COUNT rows;
     dts_successful_deployments := COUNT (filter is_success rows);
     dts_avg_duration_minutes :=
       option_map ROUND2
         (AVG (map (fun r => Some (Deployment.Duration r)) rows)) |}.

(** [SELECT ... FROM deployments GROUP BY DATE_TRUNC('day', timestamp), team] *)
Definition select_daily_team_summary (ds : list Deployment.t)
  : list DailyTeamSummary :=
  map daily_team_summary_row (GROUP_BY key_dec day_team ds).

(** The aggregates of one team that the ranking statement orders by. *)
Record TeamCounts : Type := {
  tc_team : string;
  tc_total : Z;
  tc_successful : Z
}.

Definition team_counts (g : string * list Deployment.t) : TeamCounts :=
  {| tc_team := fst g;
     tc_total := COUNT (snd g);
     tc_successful := COUNT (filter is_success (snd g)) |}.

(** [COUNT( * ) FILTER (WHERE status = 'success') * 100.0 / COUNT( * )], a
    DOUBLE quotient. *)
Definition success_pct (c : TeamCounts) : Q :=
  to_double (inject_Z (tc_successful c) * 100 / inject_Z (tc_total c)).

(** [SELECT team, RANK() OVER (ORDER BY <success pct> DESC),
            RANK() OVER (ORDER BY COUNT( * ) DESC)
     FROM deployments GROUP BY team]: the first window adds its rank to the
    grouped rows, the second one adds its rank to the rows of the first. *)
Definition select_team_rankings (ds : list Deployment.t) : list TeamRanking :=
  let groups := map team_counts (GROUP_BY string_dec Deployment.Team ds) in
  let by_success := RANK_OVER Qle_bool success_pct groups in
  let by_velocity := RANK_OVER Z.leb (fun p => tc_total (fst p)) by_success in
  map (fun p => {| tr_team := tc_team (fst (fst p));
                   tr_success_rank := snd (fst p);
                   tr_velocity_rank := snd p |}) by_velocity.

(** The same statement with the dense ranks that the specification names. *)
Definition select_team_rankings_dense (ds : list Deployment.t)
  : list TeamRanking :=
  let groups := map team_counts (GROUP_BY string_dec Deployment.Team ds) in
  let by_success := DENSE_RANK_OVER Qle_bool success_pct groups in
  let by_velocity :=
    DENSE_RANK_OVER Z.leb (fun p => tc_total (fst p)) by_success in
  map (fun p => {| tr_team := tc_team (fst (fst p));
                   tr_success_rank := snd (fst p);
                   tr_velocity_rank := snd p |}) by_velocity.

(** What a statement does to the store when the engine runs it:
    [CREATE OR REPLACE TABLE t AS SELECT ...] puts the rows of the SELECT in
    the place of [t]. *)
Definition run (q : Statement) (d : DB) : DB :=
  match q with
  | CreateOrReplace_daily_team_summary =>
      {| deployments := deployments d;
         daily_team_summary := Some (select_daily_team_summary (deployments d));
         team_rankings := team_rankings d;
         current_date := current_date d;
         verdicts := verdicts d |}
  | CreateOrReplace_team_rankings =>
      {| deployments := deployments d;
         daily_team_summary := daily_team_summary d;
         team_rankings := Some (select_team_rankings (deployments d));
         current_date := current_date d;
         verdicts := verdicts d |}
  end.

(** [db.Exec]: a statement that the engine refuses leaves the tables as they
    are. *)
Definition DB_Exec (d : DB) (q : Statement) : DB * option string :=
  match verdict d with
  | Some e => (answered d, Some e)
  | None => (run q (answered d), None)
  end.

(** [for _, query := range queries { if _, err := ms.db.Exec(query); ... }] *)
Fixpoint exec_each (d : DB) (queries : list Statement) : DB * option string :=
  match queries with
  | [] => (d, None)
  | q :: rest =>
      match DB_Exec d q with
      | (d', Some e) => (d', Some ("aggregation query failed: " ++ e))
      | (d', None) => exec_each d' rest
      end
  end.

Definition aggregateMetrics (ms : MetricsService) : MetricsService * option string :=
  let queries :=
    [CreateOrReplace_daily_team_summary; CreateOrReplace_team_rankings] in
  let (d, err) := exec_each (db ms) queries in
  ({| db := d |}, err).

(** ** The order of the stored rows *)

(** The two statements of the cycle have no ORDER BY: which row of its SELECT
    the engine stores first is the engine's choice and may differ from one
    run to the next.  [run] above stores the rows in one order of the
    SELECT; the relations below admit every order.  [stores q d d']: the
    engine, running [q] on [d], may leave [d']. *)
Definition stores (q : Statement) (d d' : DB) : Prop :=
  match q with
  | CreateOrReplace_daily_team_summary =>
      exists rows,
        Permutation (select_daily_team_summary (deployments d)) rows
        /\ d' = {| deployments := deployments d;
                   daily_team_summary := Some rows;
                   team_rankings := team_rankings d;
                   current_date := current_date d;
                   verdicts := verdicts d |}
  | CreateOrReplace_team_rankings =>
      exists rows,
        Permutation (select_team_rankings (deployments d)) rows
        /\ d' = {| deployments := deployments d;
                   daily_team_summary := daily_team_summary d;
                   team_rankings := Some rows;
                   current_date := current_date d;
                   verdicts := verdicts d |}
  end.

(** [db.Exec] on such an engine. *)
Inductive Exec_outcome (d : DB) (q : Statement) : DB -> option string -> Prop :=
| Exec_refused (e : string) :
    verdict d = Some e -> Exec_outcome d q (answered d) (Some e)
| Exec_stored (d' : DB) :
    verdict d = None -> stores q (answered d) d' -> Exec_outcome d q d' None.

(** The loop of [aggregateMetrics] over its statements. *)
Inductive cycle_outcome : DB -> list Statement -> DB -> option string -> Prop :=
| cycle_done (d : DB) : cycle_outcome d [] d None
| cycle_failed (d d' : DB) (q : Statement) (rest : list Statement) (e : string) :
    Exec_outcome d q d' (Some e) ->
    cycle_outcome d (q :: rest) d' (Some ("aggregation query failed: " ++ e))
| cycle_next (d d1 d' : DB) (q : Statement) (rest : list Statement)
    (err : option string) :
    Exec_outcome d q d1 None -> cycle_outcome d1 rest d' err ->
    cycle_outcome d (q :: rest) d' err.

(** [aggregateMetrics_outcome ms ms' err]: a call of [aggregateMetrics] on
    [ms] may return [err] and leave [ms']. *)
Definition aggregateMetrics_outcome (ms ms' : MetricsService)
  (err : option string) : Prop :=
  cycle_outcome (db ms)
    [CreateOrReplace_daily_team_summary; CreateOrReplace_team_rankings]
    (db ms') err.

(** What Go returns beside an error: the nil slice. *)
Definition returned {A : Type} (r : result string (list A)) : list A :=
  match r with
  | Ok l => l
  | Err _ => []
  end.

(** ** HTTP handlers *)

(** The query parameters of the request, in the order of the URL. *)
Definition Context : Type := list (string * string).

Fixpoint GetQuery (c : Context) (key : string) : option string :=
  match c with
  | [] => None
  | (k, v) :: rest => if String.eqb k key then Some v else GetQuery rest key
  end.

(** [c.Query] *)
Definition Context_Query (c : Context) (key : string) : string :=
  match GetQuery c key with
  | Some v => v
  | None => ""
  end.

Definition DefaultQuery (c : Context) (key defaultValue : string) : string :=
  match GetQuery c key with
  | Some v => v
  | None => defaultValue
  end.

Inductive Body : Type :=
| ErrorBody (message : string)
| TeamMetricsBody (metrics : list TeamMetrics.t)
| DailyMetricsBody (metrics : list DailyMetrics.t).

(** [c.JSON(code, obj)] *)
Record Response : Type := JSON { code : Z; obj : Body }.

Definition StatusOK : Z := 200.
Definition StatusInternalServerError : Z := 500.

Record Handler : Type := { service : MetricsService }.


(** The answer of the daily handler to what the service returns. *)
Definition daily_response (r : result string (list DailyMetrics.t)) : Response :=
  match r with
  | Err e => JSON StatusInternalServerError (ErrorBody e)
  | Ok metrics => JSON StatusOK (DailyMetricsBody metrics)
  end.

(** The locals [team] and [days] of the daily handler when it calls the
    service. *)
Definition daily_arguments (c : Context) : string * Z :=
  let team := Context_Query c "team" in
  let daysStr := DefaultQuery c "days" "30" in
  let days := match Atoi daysStr with
              | Ok n => n
              | Err _ => 30
              end in
  (team, days).

Definition getDailyMetrics (h : Handler) (c : Context) : Response :=
  let (team, days) := daily_arguments c in
  daily_response (GetDailyMetrics (service h) team days).

(** ** Startup: the raw tables, [initializeSchema] and [LoadSampleData] *)

(** Rows of the raw tables [incidents] and [pull_requests]; a column without
    NOT NULL holds an [option]. *)
Module Incident.
Record t : Type := mk {
  ID : string;
  Team : string;
  Service : string;
  StartTime : Z;
  EndTime : Z;
  Severity : string;
  ResolvedBy : option string;
  RootCause : option string
}.
End Incident.

Module PullRequest.
Record t : Type := mk {
  ID : string;
  Team : string;
  Author : string;
  CreatedAt : Z;
  MergedAt : option Z;
  LinesAdded : option Z;
  LinesDeletes : option Z;
  ReviewTimeHours : option Q;
  Status : string
}.
End PullRequest.

(** What the engine reports for a statement that fails: its own refusal, a
    table that does not exist, a row that repeats a primary key, or a source
    file that cannot be read into the columns of the table. *)
Inductive EngineError : Type :=
| Refused (msg : string)
| NoSuchTable (name : string)
| DuplicateKey (name : string)
| BadSource (name msg : string).

(** A Go error of the startup code: an error of the engine, or
    [fmt.Errorf(format, cause)] with the cause printed after the text. *)
Inductive GoError : Type :=
| EngineErr (e : EngineError)
| Errorf (text : string) (cause : GoError).

(** The raw part of the store.  A table is [None] until it has been
    created; [answers] are the verdicts of the engine on the statements to
    come, as in [DB]. *)
Record RawStore : Type := {
  raw_deployments : option (list Deployment.t);
  raw_incidents : option (list Incident.t);
  raw_pull_requests : option (list PullRequest.t);
  answers : list (option string)
}.

(** The rows that [read_csv_auto] yields for the three sample files, in the
    columns of their table, or the error of reading them. *)
Record SampleFiles : Type := {
  deployments_csv : result string (list Deployment.t);
  incidents_csv : result string (list Incident.t);
  pull_requests_csv : result string (list PullRequest.t)
}.

Inductive Table : Type := T_deployments | T_incidents | T_pull_requests.

Definition table_name (t : Table) : string :=
  match t with
  | T_deployments => "deployments"
  | T_incidents => "incidents"
  | T_pull_requests => "pull_requests"
  end.

Inductive RawStatement : Type :=
| CreateTableIfNotExists (t : Table)
| DeleteFrom (t : Table)
| InsertFromCSV (t : Table).

(** No value occurs twice: the PRIMARY KEY constraint. *)
Fixpoint unique (keys : list string) : bool :=
  match keys with
  | [] => true
  | k :: rest => negb (existsb (String.eqb k) rest) && unique rest
  end.

(** [CREATE TABLE IF NOT EXISTS]: an existing table is left alone. *)
Definition create_table {R : Type} (t : option (list R)) : option (list R) :=
  match t with
  | None => Some []
  | Some rows => Some rows
  end.

(** [DELETE FROM t] *)
Definition delete_rows {R : Type} (name : string) (t : option (list R))
  : result EngineError (option (list R)) :=
  match t with
  | None => Err (NoSuchTable name)
  | Some _ => Ok (Some [])
  end.

(** [INSERT INTO t SELECT * FROM read_csv_auto(file)]: all rows of the file
    or none. *)
Definition insert_rows {R : Type} (name : string) (id : R -> string)
  (source : result string (list R)) (t : option (list R))
  : result EngineError (option (list R)) :=
  match t, source with
  | None, _ => Err (NoSuchTable name)
  | Some _, Err msg => Err (BadSource name msg)
  | Some rows, Ok new =>
      if unique (map id (rows ++ new)%list)
      then Ok (Some (rows ++ new)%list)
      else Err (DuplicateKey name)
  end.

Definition with_deployments (s : RawStore) (t : option (list Deployment.t))
  : RawStore :=
  {| raw_deployments := t;
     raw_incidents := raw_incidents s;
     raw_pull_requests := raw_pull_requests s;
     answers := answers s |}.

Definition with_incidents (s : RawStore) (t : option (list Incident.t))
  : RawStore :=
  {| raw_deployments := raw_deployments s;
     raw_incidents := t;
     raw_pull_requests := raw_pull_requests s;
     answers := answers s |}.

Definition with_pull_requests (s : RawStore) (t : option (list PullRequest.t))
  : RawStore :=
  {| raw_deployments := raw_deployments s;
     raw_incidents := raw_incidents s;
     raw_pull_requests := t;
     answers := answers s |}.

Definition put {R : Type} (s : RawStore)
  (store_table : RawStore -> option (list R) -> RawStore)
  (r : result EngineError (option (list R))) : result EngineError RawStore :=
  match r with
  | Ok t => Ok (store_table s t)
  | Err e => Err e
  end.

(** What a statement of the startup code does when the engine runs it. *)
Definition run_raw (files : SampleFiles) (q : RawStatement) (s : RawStore)
  : result EngineError RawStore :=
  match q with
  | CreateTableIfNotExists T_deployments =>
      Ok (with_deployments s (create_table (raw_deployments s)))
  | CreateTableIfNotExists T_incidents =>
      Ok (with_incidents s (create_table (raw_incidents s)))
  | CreateTableIfNotExists T_pull_requests =>
      Ok (with_pull_requests s (create_table (raw_pull_requests s)))
  | DeleteFrom T_deployments =>
      put s with_deployments
        (delete_rows (table_name T_deployments) (raw_deployments s))
  | DeleteFrom T_incidents =>
      put s with_incidents
        (delete_rows (table_name T_incidents) (raw_incidents s))
  | DeleteFrom T_pull_requests =>
      put s with_pull_requests
        (delete_rows (table_name T_pull_requests) (raw_pull_requests s))
  | InsertFromCSV T_deployments =>
      put s with_deployments
        (insert_rows (table_name T_deployments) Deployment.ID
           (deployments_csv files) (raw_deployments s))
  | InsertFromCSV T_incidents =>
      put s with_incidents
        (insert_rows (table_name T_incidents) Incident.ID
           (incidents_csv files) (raw_incidents s))
  | InsertFromCSV T_pull_requests =>
      put s with_pull_requests
        (insert_rows (table_name T_pull_requests) PullRequest.ID
           (pull_requests_csv files) (raw_pull_requests s))
  end.

Definition heard (s : RawStore) : RawStore :=
  {| raw_deployments := raw_deployments s;
     raw_incidents := raw_incidents s;
     raw_pull_requests := raw_pull_requests s;
     answers := tl (answers s) |}.

(** [db.Exec] on the raw tables: a statement that fails changes no table. *)
Definition Raw_Exec (files : SampleFiles) (s : RawStore) (q : RawStatement)
  : RawStore * option EngineError :=
  match hd None (answers s) with
  | Some msg => (heard s, Some (Refused msg))
  | None =>
      match run_raw files q (heard s) with
      | Ok s' => (s', None)
      | Err e => (heard s, Some e)
      end
  end.

(** The loops over [schemas] and [queries]: the statements in order, up to
    the first that fails. *)
Fixpoint exec_until (files : SampleFiles) (s : RawStore)
  (statements : list RawStatement) : RawStore * option EngineError :=
  match statements with
  | [] => (s, None)
  | q :: rest =>
      match Raw_Exec files s q with
      | (s', Some e) => (s', Some e)
      | (s', None) => exec_until files s' rest
      end
  end.

Definition schemas : list RawStatement :=
  [ CreateTableIfNotExists T_deployments;
    CreateTableIfNotExists T_incidents;
    CreateTableIfNotExists T_pull_requests ].

(** The statements of the schema read no file. *)
Definition no_files : SampleFiles :=
  {| deployments_csv := Err "";
     incidents_csv := Err "";
     pull_requests_csv := Err "" |}.

Definition initializeSchema (s : RawStore) : RawStore * option GoError :=
  match exec_until no_files s schemas with
  | (s', Some e) => (s', Some (Errorf "Failed to create schema: " (EngineErr e)))
  | (s', None) => (s', None)
  end.

Definition LoadSampleData (files : SampleFiles) (s : RawStore)
  : RawStore * option GoError :=
  let queries :=
    [ DeleteFrom T_deployments;
      DeleteFrom T_incidents;
      DeleteFrom T_pull_requests;
      InsertFromCSV T_deployments;
      InsertFromCSV T_incidents;
      InsertFromCSV T_pull_requests ] in
  match exec_until files s queries with
  | (s', Some e) => (s', Some (EngineErr e))
  | (s', None) => (s', None)
  end.

(** [NewMetricsService]; [opened] is what [sql.Open] returns for the file of
    the store. *)
Definition NewMetricsService (opened : result EngineError RawStore)
  : result GoError RawStore :=
  match opened with
  | Err e => Err (Errorf "Failed to open DuckDB: " (EngineErr e))
  | Ok s =>
      match initializeSchema s with
      | (_, Some err) => Err (Errorf "Failed to initialize schema: " err)
      | (s', None) => Ok s'
      end
  end.

(** Every table that exists has its primary key unique. *)
Definition keys_unique (s : RawStore) : Prop :=
  (forall rows, raw_deployments s = Some rows ->
                unique (map Deployment.ID rows) = true)
  /\ (forall rows, raw_incidents s = Some rows ->
                   unique (map Incident.ID rows) = true)
  /\ (forall rows, raw_pull_requests s = Some rows ->
                   unique (map PullRequest.ID rows) = true).

(** ** The scheduled job of [main] *)

(** The function that [main] hands to the scheduler: one aggregation cycle,
    whose error is logged and dropped. *)
Definition scheduled_job (ms : MetricsService) : MetricsService :=
  fst (aggregateMetrics ms).

(** [n] runs of the job, one after the other. *)
Fixpoint run_jobs (n : nat) (ms : MetricsService) : MetricsService :=
  match n with
  | O => ms
  | S n' => run_jobs n' (scheduled_job ms)
  end.

(** Every derived table that exists is the rollup of the raw table. *)
Definition derived_consistent (d : DB) : Prop :=
  (daily_team_summary d = None
   \/ daily_team_summary d = Some (select_daily_team_summary (deployments d)))
  /\ (team_rankings d = None
      \/ team_rankings d = Some (select_team_rankings (deployments d))).

(** ** Sample stores *)

Definition deployment (id team : string) (timestamp duration : Z)
  (status : string) : Deployment.t :=
  Deployment.mk id team "api" timestamp duration status "production" "c0ffee".

Definition store (ds : list Deployment.t) (today : Z)
  (answers : list (option string)) : DB :=
  {| deployments := ds;
     daily_team_summary := None;
     team_rankings := None;
     current_date := today;
     verdicts := answers |}.

(** 2024-01-01 *)
Definition new_year : Z := 19723.

(** Three deployments of team alpha (two successful, one failed, durations
    10, 20 and 30 minutes) and one successful deployment of team beta. *)
Definition sample_deployments : list Deployment.t :=
  [ deployment "d1" "alpha" (midnight new_year + 5) 10 "success";
    deployment "d2" "alpha" (midnight new_year + 7) 20 "success";
    deployment "d3" "alpha" (midnight (new_year - 1)) 30 "failed";
    deployment "d4" "beta" (midnight (new_year - 3)) 5 "success" ].

Definition sample_service : MetricsService :=
  {| db := store sample_deployments new_year [] |}.

Definition sample_team_metrics : list TeamMetrics.t :=
  [ TeamMetrics.mk "beta" 1 1 100 5 (to_double 0.14);
    TeamMetrics.mk "alpha" 3 2 (to_double 66.67) 15 (to_double 0.43) ].

(** A store whose only deployment failed. *)
Definition failed_only_service : MetricsService :=
  {| db := store [deployment "d1" "alpha" (midnight new_year) 30 "failed"]
             new_year [] |}.

(** A store in which the engine runs the first statement to come and refuses
    the second one. *)
Definition interrupted_service : MetricsService :=
  {| db := store sample_deployments new_year
             [None; Some "IO Error: could not write to file"] |}.

(** A store whose only deployment is dated on the current date, and one whose
    only deployment is dated on the day after it. *)
Definition today_service : MetricsService :=
  {| db := store [deployment "d1" "alpha" (midnight new_year + 36000000000)
                    10 "success"] new_year [] |}.

Definition tomorrow_service : MetricsService :=
  {| db := store [deployment "d1" "alpha" (midnight (new_year + 1))
                    10 "success"] new_year [] |}.

(** A store whose deployments all lie before the current date. *)
Definition earlier_service : MetricsService :=
  {| db := store [deployment "d3" "alpha" (midnight (new_year - 1)) 30 "failed";
                  deployment "d4" "beta" (midnight (new_year - 3)) 5 "success"]
             new_year [] |}.

(** Sample files and raw stores. *)
Definition sample_incidents : list Incident.t :=
  [ Incident.mk "i1" "alpha" "api" (midnight new_year)
      (midnight new_year + 3600000000) "high" (Some "ann") None ].

Definition sample_pull_requests : list PullRequest.t :=
  [ PullRequest.mk "p1" "beta" "bob" (midnight (new_year - 2)) None
      (Some 12) (Some 3) None "open" ].

Definition sample_files : SampleFiles :=
  {| deployments_csv := Ok sample_deployments;
     incidents_csv := Ok sample_incidents;
     pull_requests_csv := Ok sample_pull_requests |}.

(** The deployments file repeats the identifier d1. *)
Definition duplicate_files : SampleFiles :=
  {| deployments_csv :=
       Ok [ deployment "d1" "alpha" (midnight new_year) 10 "success";
            deployment "d1" "beta" (midnight new_year) 20 "success" ];
     incidents_csv := Ok sample_incidents;
     pull_requests_csv := Ok sample_pull_requests |}.

(** A new store file, and a store that holds the rows of an earlier load. *)
Definition new_store : RawStore :=
  {| raw_deployments := None;
     raw_incidents := None;
     raw_pull_requests := None;
     answers := [] |}.

Definition loaded_store : RawStore :=
  {| raw_deployments := Some sample_deployments;
     raw_incidents := Some sample_incidents;
     raw_pull_requests := Some sample_pull_requests;
     answers := [] |}.

(** The sample store after a cycle, and the same store with the rows of both
    derived tables in the opposite order. *)
Definition aggregated_service : MetricsService :=
  fst (aggregateMetrics sample_service).

Definition reordered_service : MetricsService :=
  {| db := {| deployments := sample_deployments;
              daily_team_summary :=
                Some (rev (select_daily_team_summary sample_deployments));
              team_rankings :=
                Some (rev (select_team_rankings sample_deployments));
              current_date := new_year;
              verdicts := [] |} |}.

(** The deployments of one team. *)
Definition deployments_of (t : string) (ds : list Deployment.t)
  : list Deployment.t :=
  filter (fun d => String.eqb (Deployment.Team d) t) ds.

(** The teams of the deployments table and their counts. *)
Definition teams (ds : list Deployment.t) : list string :=
  nodup string_dec (map Deployment.Team ds).

Definition counts_of (ds : list Deployment.t) (t : string) : TeamCounts :=
  {| tc_team := t;
     tc_total := COUNT (deployments_of t ds);
     tc_successful := COUNT (filter is_success (deployments_of t ds)) |}.

(** The unrounded success percentage of a team. *)
Definition team_pct (ds : list Deployment.t) (t : string) : Q :=
  success_pct (counts_of ds t).

(** Teams a and b have one successful deployment each, team c one successful
    and one failed deployment. *)
Definition tie_service : MetricsService :=
  {| db := store [deployment "d1" "a" 0 10 "success";
                  deployment "d2" "b" 0 20 "success";
                  deployment "d3" "c" 0 30 "failed";
                  deployment "d4" "c" 0 30 "success"] new_year [] |}.

(** * Properties *)

(** ** Sums and counts *)

Lemma SUM_app (l1 l2 : list Z) : SUM (l1 ++ l2)%list = SUM l1 + SUM l2.
Proof. unfold SUM. induction l1 as [|x l1 IH]; simpl; lia. Qed.

Lemma SUM_perm (l1 l2 : list Z) : Permutation l1 l2 -> SUM l1 = SUM l2.
Proof. unfold SUM. induction 1; simpl; lia. Qed.

Lemma SUM_map_add {A : Type} (f g : A -> Z) (l : list A) :
  SUM (map (fun x => f x + g x) l) = SUM (map f l) + SUM (map g l).
Proof. unfold SUM. induction l as [|x l IH]; simpl; lia. Qed.

Lemma COUNT_cons {A : Type} (x : A) (l : list A) : COUNT (x :: l) = 1 + COUNT l.
Proof. unfold COUNT. simpl List.length. lia. Qed.

Lemma COUNT_nonneg {A : Type} (l : list A) : 0 <= COUNT l.
Proof. unfold COUNT. lia. Qed.

Lemma COUNT_pos {A : Type} (l : list A) : l <> [] -> 0 < COUNT l.
Proof. destruct l; [congruence | rewrite COUNT_cons; pose proof (COUNT_nonneg l); lia]. Qed.

Lemma COUNT_filter_le {A : Type} (f : A -> bool) (l : list A) :
  COUNT (filter f l) <= COUNT l.
Proof.
  induction l as [|x l IH]; simpl; [lia|].
  destruct (f x); rewrite ?COUNT_cons; lia.
Qed.

(** The two ways in which the statements count the successful rows agree. *)
Lemma SUM_success_flag (rows : list Deployment.t) :
  SUM (map success_flag rows) = COUNT (filter is_success rows).
Proof.
  induction rows as [|r rows IH]; [reflexivity|].
  change (SUM (map success_flag (r :: rows)))
    with (success_flag r + SUM (map success_flag rows)).
  simpl filter. unfold success_flag at 1.
  destruct (is_success r); rewrite ?COUNT_cons; lia.
Qed.

(** ** ORDER BY *)

Section OrderingFacts.
Context {R : Type}.
Variable before : R -> R -> bool.

Lemma insert_row_perm (r : R) (l : list R) :
  Permutation (insert_row before r l) (r :: l).
Proof.
  induction l as [|x l IH]; simpl; [reflexivity|].
  destruct (before r x); [reflexivity|].
  rewrite IH. apply perm_swap.
Qed.

Lemma ORDER_BY_perm (l : list R) : Permutation (ORDER_BY before l) l.
Proof.
  induction l as [|x l IH]; simpl; [constructor|].
  rewrite insert_row_perm. now constructor.
Qed.

Lemma ORDER_BY_In (l : list R) (x : R) : In x (ORDER_BY before l) <-> In x l.
Proof.
  split; apply Permutation_in;
    [apply ORDER_BY_perm | symmetry; apply ORDER_BY_perm].
Qed.

Hypothesis before_total : forall a b, before a b = false -> before b a = true.

Let precedes (a b : R) : Prop := before a b = true.

Lemma insert_row_sorted (r : R) (l : list R) :
  Sorted precedes l -> Sorted precedes (insert_row before r l).
Proof.
  induction 1 as [|x l Hl IH Hhd]; simpl.
  - repeat constructor.
  - destruct (before r x) eqn:E.
    + constructor; [now constructor | now constructor].
    + constructor; [exact IH|].
      destruct Hhd as [|y l' Hxy]; simpl.
      * constructor. now apply before_total.
      * destruct (before r y); constructor;
          [now apply before_total | exact Hxy].
Qed.

Lemma ORDER_BY_sorted (l : list R) : Sorted precedes (ORDER_BY before l).
Proof.
  induction l as [|x l IH]; simpl; [constructor|].
  now apply insert_row_sorted.
Qed.
End OrderingFacts.

(** ** GROUP BY *)

Section GroupingFacts.
Context {R K : Type}.
Variable K_dec : forall x y : K, {x = y} + {x <> y}.
Variable key : R -> K.

Lemma GROUP_BY_In (rows : list R) (g : K * list R) :
  In g (GROUP_BY K_dec key rows) ->
  In (fst g) (map key rows) /\ snd g = filter (has_key K_dec key (fst g)) rows.
Proof.
  unfold GROUP_BY. rewrite in_map_iff. intros (k & <- & Hk).
  apply nodup_In in Hk. now split.
Qed.

(** Every group holds a row: no aggregate is taken over an empty group. *)
Lemma GROUP_BY_nonempty (rows : list R) (g : K * list R) :
  In g (GROUP_BY K_dec key rows) -> snd g <> [].
Proof.
  intros Hg. apply GROUP_BY_In in Hg as [Hk ->].
  apply in_map_iff in Hk as (r & Hr & Hin).
  intros Hnil.
  assert (Hf : In r (filter (has_key K_dec key (fst g)) rows)).
  { apply filter_In. split; [exact Hin|].
    unfold has_key. destruct (K_dec (key r) (fst g)); congruence. }
  rewrite Hnil in Hf. exact Hf.
Qed.

Lemma GROUP_BY_nil : GROUP_BY K_dec key [] = [].
Proof. reflexivity. Qed.

Lemma GROUP_BY_nil_inv (rows : list R) :
  GROUP_BY K_dec key rows = [] -> rows = [].
Proof.
  destruct rows as [|r rows]; [reflexivity|]. intros H.
  assert (Hin : In (key r) (nodup K_dec (map key (r :: rows)))).
  { apply nodup_In. now left. }
  unfold GROUP_BY in H. apply map_eq_nil in H. rewrite H in Hin. destruct Hin.
Qed.

Let hit (r : R) (k : K) : Z := if has_key K_dec key k r then 1 else 0.

Lemma hit_once (r : R) (ks : list K) :
  NoDup ks -> In (key r) ks -> SUM (map (hit r) ks) = 1.
Proof.
  induction 1 as [|k ks Hnin Hnd IH]; intros Hin; [destruct Hin|].
  change (SUM (map (hit r) (k :: ks))) with (hit r k + SUM (map (hit r) ks)).
  unfold hit at 1, has_key. destruct (K_dec (key r) k) as [E|NE].
  - assert (Hz : SUM (map (hit r) ks) = 0).
    { clear IH Hin Hnd. subst k.
      induction ks as [|k' ks IHks]; [reflexivity|].
      change (SUM (map (hit r) (k' :: ks)))
        with (hit r k' + SUM (map (hit r) ks)).
      rewrite IHks by (intros H; apply Hnin; now right).
      unfold hit, has_key. destruct (K_dec (key r) k') as [E'|_]; [|reflexivity].
      exfalso. apply Hnin. now left. }
    lia.
  - destruct Hin as [Hin|Hin]; [congruence|]. rewrite (IH Hin). lia.
Qed.

Lemma count_by_key (ks : list K) (rows : list R) :
  NoDup ks -> (forall r, In r rows -> In (key r) ks) ->
  SUM (map (fun k => COUNT (filter (has_key K_dec key k) rows)) ks)
  = COUNT rows.
Proof.
  intros Hnd. induction rows as [|r rows IH]; intros Hks.
  - clear. cbn [filter]. induction ks as [|k ks IH]; [reflexivity|].
    cbn [map]. change (SUM (?x :: ?l)) with (x + SUM l). now rewrite IH.
  - rewrite COUNT_cons, <- IH by (intros; apply Hks; now right).
    rewrite <- (hit_once r ks Hnd) by (apply Hks; now left).
    rewrite <- SUM_map_add. f_equal. apply map_ext. intros k.
    simpl filter. unfold hit. destruct (has_key K_dec key k r);
      rewrite ?COUNT_cons; lia.
Qed.

(** The groups share out the input: every row is counted in one group. *)
Lemma GROUP_BY_count (rows : list R) :
  SUM (map (fun g => COUNT (snd g)) (GROUP_BY K_dec key rows)) = COUNT rows.
Proof.
  unfold GROUP_BY. rewrite map_map. simpl.
  apply count_by_key; [apply NoDup_nodup|].
  intros r Hr. apply nodup_In. now apply in_map.
Qed.
End GroupingFacts.

(** ** Scanning *)

Section ScanFacts.
Context {Row T : Type}.
Variable scan : Row -> result string T.

Let scanned (r : Row) (m : T) : Prop := scan r = Ok m.

Lemma scan_rows_Ok (rows : list Row) (acc metrics : list T) :
  scan_rows scan rows acc = Ok metrics ->
  exists ms, metrics = (acc ++ ms)%list /\ Forall2 scanned rows ms.
Proof.
  revert acc. induction rows as [|r rows IH]; simpl; intros acc H.
  - injection H as <-. exists []. now rewrite app_nil_r.
  - destruct (scan r) as [m|e] eqn:E; [|discriminate].
    apply IH in H as (ms & -> & Hms).
    exists (m :: ms). rewrite <- app_assoc. split; [reflexivity|].
    now constructor.
Qed.

(** When every failing row fails with the same error, one failing row makes
    the loop return that error. *)
Lemma scan_rows_Err (e0 : string) (rows : list Row) (acc : list T) :
  (forall r e, In r rows -> scan r = Err e -> e = e0) ->
  (exists r, In r rows /\ scan r = Err e0) ->
  scan_rows scan rows acc = Err ("scan failed: " ++ e0).
Proof.
  revert acc. induction rows as [|r rows IH]; simpl; intros acc Hall (x & Hx & Ex).
  - destruct Hx.
  - destruct (scan r) as [m|e] eqn:E.
    + apply IH; [intros r0 e Hr0 He; apply (Hall r0 e); [now right | exact He]|].
      destruct Hx as [->|Hx]; [congruence|]. exists x. split; assumption.
    + now rewrite (Hall r e (or_introl eq_refl) E).
Qed.
End ScanFacts.

Lemma Forall2_In_r {A B : Type} (P : A -> B -> Prop) (l : list A) (l' : list B) (b : B) :
  Forall2 P l l' -> In b l' -> exists a, In a l /\ P a b.
Proof.
  induction 1 as [|x y l l' Hxy _ IH]; intros Hin; [destruct Hin|].
  destruct Hin as [<-|Hin].
  - exists x. split; [now left | exact Hxy].
  - destruct (IH Hin) as (a & Ha & Pa). exists a. split; [now right | exact Pa].
Qed.

Lemma Forall2_Sorted {A B : Type} (P : A -> B -> Prop)
  (RA : A -> A -> Prop) (RB : B -> B -> Prop) (l : list A) (l' : list B) :
  (forall a a' b b', P a b -> P a' b' -> RA a a' -> RB b b') ->
  Forall2 P l l' -> Sorted RA l -> Sorted RB l'.
Proof.
  intros Hrel. induction 1 as [|x y l l' Hxy Hll IH]; intros Hs; [constructor|].
  apply Sorted_inv in Hs as [Hs Hhd]. constructor; [now apply IH|].
  destruct Hll as [|x' y' l l' Hxy' _]; constructor.
  apply HdRel_inv in Hhd. eapply Hrel; eauto.
Qed.

Lemma Forall2_map_eq {A B C : Type} (P : A -> B -> Prop) (f : A -> C) (g : B -> C)
  (l : list A) (l' : list B) :
  (forall a b, P a b -> f a = g b) -> Forall2 P l l' -> map f l = map g l'.
Proof.
  intros Hfg. induction 1 as [|x y l l' Hxy _ IH]; simpl; [reflexivity|].
  now rewrite IH, (Hfg _ _ Hxy).
Qed.

(** What a successful scan of a team row stores. *)
Lemma Scan_TeamMetrics_Ok (r : TeamMetricsRow) (tm : TeamMetrics.t) :
  Scan_TeamMetrics r = Ok tm ->
  TeamMetrics.Team tm = team r
  /\ TeamMetrics.TotalDeployments tm = total_deployments r
  /\ TeamMetrics.SuccessfulDeployments tm = successful_deployments r
  /\ TeamMetrics.SuccessRate tm = success_rate r
  /\ avg_duration r = Some (TeamMetrics.AvgDurationMinutes tm)
  /\ TeamMetrics.DeploymentFrequency tm = deployments_per_day r.
Proof.
  unfold Scan_TeamMetrics, Scan_float64.
  destruct (avg_duration r) as [avg|]; [|discriminate].
  intros H. injection H as <-. simpl. repeat split; reflexivity.
Qed.

(** The rows behind a successful [GetTeamMetrics]. *)
Lemma GetTeamMetrics_Ok (ms : MetricsService) (metrics : list TeamMetrics.t) :
  GetTeamMetrics ms = Ok metrics ->
  Forall2 (fun r tm => Scan_TeamMetrics r = Ok tm)
    (select_team_metrics (db ms)) metrics.
Proof.
  unfold GetTeamMetrics, DB_Query.
  destruct (verdict (db ms)); [discriminate|]. intros H.
  apply scan_rows_Ok in H as (l & -> & Hl). exact Hl.
Qed.

(** A row of the team statement comes from a group of the deployments. *)
Lemma select_team_metrics_In (d : DB) (r : TeamMetricsRow) :
  In r (select_team_metrics d) ->
  exists g, In g (GROUP_BY string_dec Deployment.Team (deployments d))
            /\ r = team_metrics_row g.
Proof.
  unfold select_team_metrics. rewrite ORDER_BY_In, in_map_iff.
  intros (g & <- & Hg). now exists g.
Qed.

(** ** Rounding *)

(** Rounding to the nearest integer. *)
Lemma round_half_even_bounds (x : Q) :
  (x - (1 # 2) <= inject_Z (round_half_even x) <= x + (1 # 2))%Q.
Proof.
  unfold round_half_even.
  pose proof (Qfloor_le x) as Hlo. pose proof (Qlt_floor x) as Hhi.
  rewrite inject_Z_plus in Hhi. change (inject_Z 1) with 1%Q in Hhi.
  destruct (x - inject_Z (Qfloor x) ?= 1 # 2)%Q eqn:E.
  - apply Qeq_alt in E. destruct (Z.even (Qfloor x));
      rewrite ?inject_Z_plus; change (inject_Z 1) with 1%Q; split; lra.
  - apply Qlt_alt in E. split; lra.
  - apply Qgt_alt in E. rewrite inject_Z_plus. change (inject_Z 1) with 1%Q.
    split; lra.
Qed.

Lemma round_half_even_comp (x y : Q) : (x == y)%Q -> round_half_even x = round_half_even y.
Proof.
  intros H. unfold round_half_even. rewrite (Qfloor_comp x y H).
  assert (E : (x - inject_Z (Qfloor y) ?= 1 # 2)%Q = (y - inject_Z (Qfloor y) ?= 1 # 2)%Q).
  { apply Qcompare_comp; [rewrite H; reflexivity | reflexivity]. }
  now rewrite E.
Qed.

Lemma round_half_even_mono (x y : Q) : (x <= y)%Q -> round_half_even x <= round_half_even y.
Proof.
  intros Hxy. destruct (Z_le_gt_dec (round_half_even x) (round_half_even y)) as [H|H]; [exact H|].
  exfalso. pose proof (round_half_even_bounds x) as [_ Hx]. pose proof (round_half_even_bounds y) as [Hy _].
  assert (Hab : (inject_Z (round_half_even y) + 1 <= inject_Z (round_half_even x))%Q).
  { change 1%Q with (inject_Z 1). rewrite <- inject_Z_plus, <- Zle_Qle. lia. }
  assert (E : (x == y)%Q) by lra.
  apply round_half_even_comp in E. lia.
Qed.

Lemma round_half_even_Z (z : Z) : round_half_even (inject_Z z) = z.
Proof.
  unfold round_half_even. rewrite Qfloor_Z.
  assert (E : (inject_Z z - inject_Z z ?= 1 # 2)%Q = Lt) by (rewrite <- Qlt_alt; lra).
  now rewrite E.
Qed.

(** Powers of two. *)
Lemma two_pos (e : Z) : (0 < 2 ^ e)%Q.
Proof. apply Qpower_0_lt. reflexivity. Qed.

Lemma two_pow_Z (k : Z) : 0 <= k -> (inject_Z (2 ^ k) == 2 ^ k)%Q.
Proof. intros H. now rewrite Zpower_Qpower. Qed.

Lemma two_pow_plus (a b : Z) : (2 ^ (a + b) == 2 ^ a * 2 ^ b)%Q.
Proof. apply Qpower_plus. discriminate. Qed.

(** The binade of a positive number. *)
Lemma binade_spec (x : Q) :
  (0 < x)%Q -> (2 ^ binade x <= x)%Q /\ (x < 2 ^ (binade x + 1))%Q.
Proof.
  intros Hx. destruct x as [n d]. 
  assert (Hn : 0 < n) by (unfold Qlt in Hx; simpl in Hx; lia).
  unfold binade. cbn [Qnum Qden].
  set (ln := Z.log2 n). set (ld := Z.log2 (Z.pos d)).
  destruct (Z.log2_spec n Hn) as [Hn1 Hn2]. fold ln in Hn1, Hn2.
  destruct (Z.log2_spec (Z.pos d) eq_refl) as [Hd1 Hd2]. fold ld in Hd1, Hd2.
  assert (Hln : 0 <= ln) by apply Z.log2_nonneg.
  assert (Hld : 0 <= ld) by apply Z.log2_nonneg.
  assert (Hq : ((n # d) * inject_Z (Z.pos d) == inject_Z n)%Q).
  { unfold Qeq, Qmult, inject_Z. simpl. lia. }
  assert (QN1 : (2 ^ ln <= inject_Z n)%Q) by (rewrite <- two_pow_Z, <- Zle_Qle; assumption).
  assert (QN2 : (inject_Z n < 2 ^ (ln + 1))%Q).
  { rewrite <- two_pow_Z by lia. rewrite <- Zlt_Qlt. exact Hn2. }
  assert (QD1 : (2 ^ ld <= inject_Z (Z.pos d))%Q) by (rewrite <- two_pow_Z, <- Zle_Qle; assumption).
  assert (QD2 : (inject_Z (Z.pos d) < 2 ^ (ld + 1))%Q).
  { rewrite <- two_pow_Z by lia. rewrite <- Zlt_Qlt. exact Hd2. }
  assert (Hdpos : (0 < inject_Z (Z.pos d))%Q) by reflexivity.
  assert (Hup : (n # d < 2 ^ (ln - ld + 1))%Q).
  { pose proof (two_pow_plus (ln - ld + 1) ld) as E.
    replace (ln - ld + 1 + ld) with (ln + 1) in E by lia.
    pose proof (two_pos ld). pose proof (two_pos (ln - ld + 1)).
    apply Qnot_le_lt. intros Hc.
    assert ((2 ^ (ln - ld + 1) * 2 ^ ld <= (n # d) * inject_Z (Z.pos d))%Q).
    { apply Qmult_le_compat_nonneg; split; try lra. }
    lra. }
  assert (Hlow : (2 ^ (ln - ld - 1) <= n # d)%Q).
  { pose proof (two_pow_plus (ln - ld - 1) (ld + 1)) as E.
    replace (ln - ld - 1 + (ld + 1)) with ln in E by lia.
    pose proof (two_pos (ld + 1)). pose proof (two_pos (ln - ld - 1)).
    apply Qnot_lt_le. intros Hc.
    assert (((n # d) * inject_Z (Z.pos d) <= (n # d) * 2 ^ (ld + 1))%Q)
      by (apply Qmult_le_compat_nonneg; split; lra).
    assert (((n # d) * 2 ^ (ld + 1) < 2 ^ (ln - ld - 1) * 2 ^ (ld + 1))%Q)
      by (apply Qmult_lt_compat_r; assumption).
    lra. }
  destruct (Qle_bool (2 ^ (ln - ld)) (n # d)) eqn:T.
  - apply Qle_bool_iff in T. split; assumption.
  - assert (T' : (n # d < 2 ^ (ln - ld))%Q).
    { apply Qnot_le_lt. intros Hc. apply Qle_bool_iff in Hc. congruence. }
    split; [exact Hlow|]. now replace (ln - ld - 1 + 1) with (ln - ld) by lia.
Qed.

Lemma binade_mono (x y : Q) : (0 < x)%Q -> (x <= y)%Q -> binade x <= binade y.
Proof.
  intros Hx Hxy. assert (Hy : (0 < y)%Q) by lra.
  destruct (binade_spec x Hx) as [Hx1 _]. destruct (binade_spec y Hy) as [_ Hy2].
  assert (H : (2 ^ binade x < 2 ^ (binade y + 1))%Q) by lra.
  apply Qpower_lt_compat_l_inv in H; [lia | reflexivity].
Qed.

(** Rounding to the nearest DOUBLE keeps the order: within a binade the grid
    is the same, and a power of two between two binades is on both
    grids. *)
Lemma nearest_double_mono (x y : Q) :
  (0 < x)%Q -> (x <= y)%Q -> (nearest_double x <= nearest_double y)%Q.
Proof.
  intros Hx Hxy. assert (Hy : (0 < y)%Q) by lra.
  pose proof (binade_mono x y Hx Hxy) as Hb.
  destruct (binade_spec x Hx) as [_ Hx2]. destruct (binade_spec y Hy) as [Hy1 _].
  unfold nearest_double.
  set (ex := Z.max (binade x) (-1022)) in *. set (ey := Z.max (binade y) (-1022)) in *.
  pose proof (two_pos (ex - 52)) as Ux. pose proof (two_pos (ey - 52)) as Uy.
  destruct (Z.eq_dec ex ey) as [E|NE].
  - rewrite <- E. apply Qmult_le_compat_r; [|lra].
    rewrite <- Zle_Qle. apply round_half_even_mono.
    apply Qmult_le_compat_r; [exact Hxy|]. apply Qinv_le_0_compat. lra.
  - assert (Hlt : ex < ey) by lia.
    assert (Hey : ey = binade y) by lia.
    assert (Hx3 : (x < 2 ^ (ex + 1))%Q).
    { eapply Qlt_le_trans; [exact Hx2|].
      apply Qpower_le_compat_l; [lia | discriminate]. }
    assert (Hmid : (2 ^ (ex + 1) <= 2 ^ ey)%Q)
      by (apply Qpower_le_compat_l; [lia | discriminate]).
    assert (Hxup : (inject_Z (round_half_even (x / 2 ^ (ex - 52))) * 2 ^ (ex - 52)
                    <= 2 ^ (ex + 1))%Q).
    { pose proof (two_pow_plus 53 (ex - 52)) as P.
      replace (53 + (ex - 52)) with (ex + 1) in P by lia. rewrite P.
      apply Qmult_le_compat_r; [|lra].
      rewrite <- (two_pow_Z 53) by lia. rewrite <- Zle_Qle.
      rewrite <- (round_half_even_Z (2 ^ 53)). apply round_half_even_mono.
      rewrite two_pow_Z by lia. apply Qle_shift_div_r; [exact Ux|].
      rewrite <- P. lra. }
    assert (Hylo : (2 ^ ey <= inject_Z (round_half_even (y / 2 ^ (ey - 52))) * 2 ^ (ey - 52))%Q).
    { pose proof (two_pow_plus 52 (ey - 52)) as P.
      replace (52 + (ey - 52)) with ey in P by lia. rewrite P at 1.
      apply Qmult_le_compat_r; [|lra].
      rewrite <- (two_pow_Z 52) by lia. rewrite <- Zle_Qle.
      rewrite <- (round_half_even_Z (2 ^ 52)) at 1. apply round_half_even_mono.
      rewrite two_pow_Z by lia. apply Qle_shift_div_l; [exact Uy|].
      rewrite <- P. rewrite Hey. exact Hy1. }
    lra.
Qed.

Lemma round_half_even_nonneg (x : Q) : (0 <= x)%Q -> 0 <= round_half_even x.
Proof.
  intros H. rewrite <- (round_half_even_Z 0). now apply round_half_even_mono.
Qed.

Lemma nearest_double_nonneg (x : Q) : (0 <= x)%Q -> (0 <= nearest_double x)%Q.
Proof.
  intros H. unfold nearest_double. apply Qmult_le_0_compat.
  - change 0%Q with (inject_Z 0). rewrite <- Zle_Qle. apply round_half_even_nonneg.
    apply Qle_shift_div_l; [apply two_pos | lra].
  - apply Qlt_le_weak, two_pos.
Qed.

Lemma to_double_mono (x y : Q) :
  (0 <= x)%Q -> (x <= y)%Q -> (to_double x <= to_double y)%Q.
Proof.
  intros Hx Hxy. unfold to_double. rewrite !Qred_correct.
  destruct (x ?= 0)%Q eqn:Ex.
  - destruct (y ?= 0)%Q eqn:Ey.
    + lra.
    + rewrite <- Qlt_alt in Ey. rewrite <- Qeq_alt in Ex. lra.
    + apply nearest_double_nonneg. lra.
  - rewrite <- Qlt_alt in Ex. lra.
  - rewrite <- Qgt_alt in Ex. destruct (y ?= 0)%Q eqn:Ey.
    + rewrite <- Qeq_alt in Ey. lra.
    + rewrite <- Qlt_alt in Ey. lra.
    + now apply nearest_double_mono.
Qed.

(** [ROUND2] keeps a percentage in its range: 0, 100 and 10000 are
    DOUBLEs. *)
Lemma ROUND2_bounds (x : Q) :
  (0 <= x)%Q -> (x <= 100)%Q -> (0 <= ROUND2 x)%Q /\ (ROUND2 x <= 100)%Q.
Proof.
  intros H0 H100. unfold ROUND2.
  assert (D0 : (to_double 0 == 0)%Q) by reflexivity.
  assert (D100 : (to_double 100 == 100)%Q) by (vm_compute; reflexivity).
  assert (D10000 : (to_double (100 * 100) == 100 * 100)%Q) by (vm_compute; reflexivity).
  pose proof (to_double_mono 0 x (Qle_refl 0) H0) as A0.
  pose proof (to_double_mono x 100 H0 H100) as A1.
  set (a := to_double x) in *.
  assert (B0 : (0 <= a * 100)%Q) by lra.
  assert (B1 : (a * 100 <= 100 * 100)%Q) by lra.
  pose proof (to_double_mono 0 (a * 100) (Qle_refl 0) B0) as C0.
  pose proof (to_double_mono (a * 100) (100 * 100) B0 B1) as C1.
  set (b := to_double (a * 100)) in *.
  assert (Hb0 : (0 <= b)%Q) by lra.
  unfold round_half_away. apply Qle_bool_iff in Hb0 as Hbb. rewrite Hbb.
  assert (Hlo : 0 <= Qfloor (b + (1 # 2))).
  { change 0 with (Qfloor (0 + (1 # 2))). apply Qfloor_resp_le. lra. }
  assert (Hhi : Qfloor (b + (1 # 2)) <= 10000).
  { change 10000 with (Qfloor (100 * 100 + (1 # 2))). apply Qfloor_resp_le. lra. }
  set (k := Qfloor (b + (1 # 2))) in *.
  assert (K0 : (0 <= inject_Z k / 100)%Q).
  { apply Qle_shift_div_l; [reflexivity|]. change (0 * 100)%Q with (inject_Z 0).
    rewrite <- Zle_Qle. exact Hlo. }
  assert (K1 : (inject_Z k / 100 <= 100)%Q).
  { apply Qle_shift_div_r; [reflexivity|]. change (100 * 100)%Q with (inject_Z 10000).
    rewrite <- Zle_Qle. exact Hhi. }
  pose proof (to_double_mono 0 _ (Qle_refl 0) K0).
  pose proof (to_double_mono _ 100 K0 K1).
  split; lra.
Qed.

Lemma success_pct_bounds (s t : Z) :
  0 <= s <= t -> 0 < t ->
  (0 <= 100 * inject_Z s / inject_Z t)%Q /\ (100 * inject_Z s / inject_Z t <= 100)%Q.
Proof.
  intros Hs Ht.
  assert (HtQ : (0 < inject_Z t)%Q) by (unfold Qlt; simpl; lia).
  split.
  - apply Qle_shift_div_l; [exact HtQ|]. rewrite Qmult_0_l.
    apply Qmult_le_0_compat; [discriminate|].
    unfold Qle; simpl; lia.
  - apply Qle_shift_div_r; [exact HtQ|].
    apply Qmult_le_l; [reflexivity|]. unfold Qle; simpl; lia.
Qed.

(** ** The team leaderboard *)

Lemma has_key_Team (t : string) (ds : list Deployment.t) :
  filter (has_key string_dec Deployment.Team t) ds = deployments_of t ds.
Proof.
  apply filter_ext. intros d. unfold has_key.
  destruct (string_dec (Deployment.Team d) t) as [E|NE].
  - symmetry. now apply String.eqb_eq.
  - symmetry. now apply String.eqb_neq.
Qed.

(** A group of the team statement is the set of deployments of its team. *)
Lemma team_group (ds : list Deployment.t) (g : string * list Deployment.t) :
  In g (GROUP_BY string_dec Deployment.Team ds) ->
  snd g = deployments_of (fst g) ds /\ snd g <> [].
Proof.
  intros Hg. split; [|now apply GROUP_BY_nonempty in Hg].
  apply GROUP_BY_In in Hg as [_ ->]. apply has_key_Team.
Qed.

Lemma non_null_success_duration (rows : list Deployment.t) :
  non_null (map success_duration rows)
  = map Deployment.Duration (filter is_success rows).
Proof.
  induction rows as [|r rows IH]; [reflexivity|].
  simpl. unfold success_duration at 1.
  destruct (is_success r); simpl; now rewrite IH.
Qed.

(** The row and the group behind an element of a successful result. *)
Lemma GetTeamMetrics_In (ms : MetricsService) (metrics : list TeamMetrics.t)
  (tm : TeamMetrics.t) :
  GetTeamMetrics ms = Ok metrics -> In tm metrics ->
  exists g, In g (GROUP_BY string_dec Deployment.Team (deployments (db ms)))
            /\ Scan_TeamMetrics (team_metrics_row g) = Ok tm.
Proof.
  intros Hok Hin. apply GetTeamMetrics_Ok in Hok.
  destruct (Forall2_In_r _ _ _ _ Hok Hin) as (r & Hr & Hscan).
  apply select_team_metrics_In in Hr as (g & Hg & ->). now exists g.
Qed.

(** C7: in a result of [GetTeamMetrics] every team has a positive deployment
    count (the division of the success rate never has a zero divisor), a
    success rate between 0 and 100, and that rate is
    [ROUND(100.0 * successful / total, 2)] of its own two counts, with the
    quotient, the product and the quotient of [ROUND] taken on DOUBLEs. *)
Theorem GetTeamMetrics_success_rate (ms : MetricsService)
  (metrics : list TeamMetrics.t) (tm : TeamMetrics.t) :
  GetTeamMetrics ms = Ok metrics -> In tm metrics ->
  0 < TeamMetrics.TotalDeployments tm
  /\ (0 <= TeamMetrics.SuccessRate tm)%Q
  /\ (TeamMetrics.SuccessRate tm <= 100)%Q
  /\ TeamMetrics.SuccessRate tm
     = ROUND2 (100 * inject_Z (TeamMetrics.SuccessfulDeployments tm)
               / inject_Z (TeamMetrics.TotalDeployments tm))%Q.
Proof.
  intros Hok Hin.
  destruct (GetTeamMetrics_In ms metrics tm Hok Hin) as (g & Hg & Hscan).
  apply Scan_TeamMetrics_Ok in Hscan as (_ & -> & -> & -> & _).
  apply team_group in Hg as [_ Hne]. cbn [team_metrics_row total_deployments
    successful_deployments success_rate].
  assert (Hpos : 0 < COUNT (snd g)) by now apply COUNT_pos.
  assert (Hsucc : 0 <= SUM (map success_flag (snd g)) <= COUNT (snd g)).
  { rewrite SUM_success_flag. split;
      [apply COUNT_nonneg | apply COUNT_filter_le]. }
  destruct (success_pct_bounds _ _ Hsucc Hpos) as [Hlo Hhi].
  destruct (ROUND2_bounds _ Hlo Hhi) as [Hlo' Hhi'].
  repeat split; assumption.
Qed.

Lemma GetTeamMetrics_success_rate_witness :
  let tm := TeamMetrics.mk "alpha" 3 2 (to_double 66.67) 15 (to_double 0.43) in
  0 < TeamMetrics.TotalDeployments tm
  /\ (0 <= TeamMetrics.SuccessRate tm)%Q
  /\ (TeamMetrics.SuccessRate tm <= 100)%Q
  /\ TeamMetrics.SuccessRate tm
     = ROUND2 (100 * inject_Z (TeamMetrics.SuccessfulDeployments tm)
               / inject_Z (TeamMetrics.TotalDeployments tm))%Q.
Proof.
  intros tm.
  apply (GetTeamMetrics_success_rate sample_service sample_team_metrics tm).
  - vm_compute. reflexivity.
  - right. left. reflexivity.
Defined.

(** The rounding of the engine at a decimal tie: for 41 successful
    deployments among 4000 the quotient is the DOUBLE below 1.025, and the
    success rate is the DOUBLE 1.02. *)
Lemma ROUND2_below_tie :
  ROUND2 (100 * inject_Z 41 / inject_Z 4000) = to_double 1.02
  /\ (100 * inject_Z 41 / inject_Z 4000 == 1.025)%Q
  /\ (to_double 1.025 < 1.025)%Q.
Proof. split; [|split]; vm_compute; reflexivity. Qed.

(** Where [GetTeamMetrics] returns a result, the total deployment counts of
    the result add up to the number of rows of the deployments table: every
    row is counted for one team. *)
Lemma GetTeamMetrics_total_count (ms : MetricsService)
  (metrics : list TeamMetrics.t) :
  GetTeamMetrics ms = Ok metrics ->
  SUM (map TeamMetrics.TotalDeployments metrics) = COUNT (deployments (db ms)).
Proof.
  intros Hok. apply GetTeamMetrics_Ok in Hok.
  rewrite <- (Forall2_map_eq _ total_deployments TeamMetrics.TotalDeployments
                _ _ (fun r tm H => eq_sym (proj1 (proj2 (Scan_TeamMetrics_Ok r tm H)))) Hok).
  unfold select_team_metrics.
  rewrite (SUM_perm _ _ (Permutation_map total_deployments
                           (ORDER_BY_perm _ _))).
  rewrite map_map. cbn [team_metrics_row total_deployments].
  apply GROUP_BY_count.
Qed.

Lemma GetTeamMetrics_total_count_witness :
  SUM (map TeamMetrics.TotalDeployments sample_team_metrics)
  = COUNT (deployments (db sample_service)).
Proof.
  apply (GetTeamMetrics_total_count sample_service sample_team_metrics).
  vm_compute. reflexivity.
Defined.

(** C8, at the failing input: the table holds one deployment, a failed one;
    [GetTeamMetrics] returns no result for it but the scan error and the
    nil slice, whose totals add up to 0 and not to the one row of the
    table. *)
Theorem GetTeamMetrics_total_count_lost :
  COUNT (deployments (db failed_only_service)) = 1
  /\ (forall metrics, GetTeamMetrics failed_only_service <> Ok metrics)
  /\ SUM (map TeamMetrics.TotalDeployments
            (returned (GetTeamMetrics failed_only_service))) = 0.
Proof.
  split; [reflexivity|]. split; [|vm_compute; reflexivity].
  intros metrics H. vm_compute in H. discriminate.
Qed.

(** C9: a result of [GetTeamMetrics] is ordered by success rate, highest
    first: no element has a greater success rate than the element before
    it. *)
Theorem GetTeamMetrics_ordered (ms : MetricsService)
  (metrics : list TeamMetrics.t) :
  GetTeamMetrics ms = Ok metrics ->
  Sorted (fun earlier later =>
            (TeamMetrics.SuccessRate later <= TeamMetrics.SuccessRate earlier)%Q)
    metrics.
Proof.
  intros Hok. apply GetTeamMetrics_Ok in Hok.
  refine (Forall2_Sorted _ (fun a b => desc Qle_bool success_rate a b = true)
            _ _ _ _ Hok _).
  - intros a a' tm tm' Ha Ha' Hd.
    apply Scan_TeamMetrics_Ok in Ha as (_ & _ & _ & -> & _).
    apply Scan_TeamMetrics_Ok in Ha' as (_ & _ & _ & -> & _).
    now apply Qle_bool_iff.
  - apply ORDER_BY_sorted. intros a b. unfold desc.
    intros H. apply Qle_bool_iff. apply Qlt_le_weak, Qnot_le_lt.
    intros Hle. apply Qle_bool_iff in Hle. congruence.
Qed.

Lemma GetTeamMetrics_ordered_witness :
  Sorted (fun earlier later =>
            (TeamMetrics.SuccessRate later <= TeamMetrics.SuccessRate earlier)%Q)
    sample_team_metrics.
Proof.
  apply (GetTeamMetrics_ordered sample_service sample_team_metrics).
  vm_compute. reflexivity.
Defined.

(** C10: on an empty deployments table [GetTeamMetrics] returns the empty
    sequence and no error, whenever the engine runs the statement. *)
Theorem GetTeamMetrics_empty (ms : MetricsService) :
  deployments (db ms) = [] -> verdict (db ms) = None ->
  GetTeamMetrics ms = Ok [].
Proof.
  intros Hnil Hrun. unfold GetTeamMetrics, DB_Query, select_team_metrics.
  rewrite Hrun, Hnil. reflexivity.
Qed.

Lemma GetTeamMetrics_empty_witness :
  GetTeamMetrics {| db := store [] new_year [] |} = Ok [].
Proof.
  apply (GetTeamMetrics_empty {| db := store [] new_year [] |});
    reflexivity.
Defined.

(** The error of a scan of a team row is the refusal of the NULL average. *)
Lemma Scan_TeamMetrics_Err (r : TeamMetricsRow) (e : string) :
  Scan_TeamMetrics r = Err e ->
  avg_duration r = None /\ e = null_scan_error 4 "avg_duration" "float64".
Proof.
  unfold Scan_TeamMetrics, Scan_float64.
  destruct (avg_duration r); [discriminate|].
  intros H. injection H as <-. now split.
Qed.

(** The average of a team row is taken over the successful deployments of
    the group and is NULL when there is none. *)
Lemma team_metrics_row_avg (g : string * list Deployment.t) :
  avg_duration (team_metrics_row g)
  = match map Deployment.Duration (filter is_success (snd g)) with
    | [] => None
    | v :: vs =>
        Some (ROUND2 (inject_Z (SUM (v :: vs)) / inject_Z (COUNT (v :: vs))))
    end.
Proof.
  cbn [team_metrics_row avg_duration]. unfold AVG.
  rewrite non_null_success_duration.
  now destruct (map Deployment.Duration (filter is_success (snd g))).
Qed.

(** The part of C2 that the program does: in a result of [GetTeamMetrics]
    the average duration of a team is the rounded mean of the durations of
    the successful deployments of that team, of which there is at least
    one. *)
Lemma GetTeamMetrics_avg_over_successes (ms : MetricsService)
  (metrics : list TeamMetrics.t) (tm : TeamMetrics.t) :
  GetTeamMetrics ms = Ok metrics -> In tm metrics ->
  let durations :=
    map Deployment.Duration
      (filter is_success
         (deployments_of (TeamMetrics.Team tm) (deployments (db ms)))) in
  durations <> []
  /\ TeamMetrics.AvgDurationMinutes tm
     = ROUND2 (inject_Z (SUM durations) / inject_Z (COUNT durations)).
Proof.
  intros Hok Hin durations.
  destruct (GetTeamMetrics_In ms metrics tm Hok Hin) as (g & Hg & Hscan).
  apply Scan_TeamMetrics_Ok in Hscan as (Hteam & _ & _ & _ & Havg & _).
  apply team_group in Hg as [Hrows _].
  rewrite team_metrics_row_avg, Hrows in Havg.
  cbn [team_metrics_row team] in Hteam. rewrite <- Hteam in Havg.
  fold durations in Havg.
  destruct durations as [|v vs]; [discriminate|].
  split; [discriminate|]. now injection Havg as <-.
Qed.

(** The part of C2 that the program misses: as soon as one team of the table
    has no successful deployment, the NULL average of that team makes the
    scan fail and [GetTeamMetrics] returns the error for the whole result. *)
Lemma GetTeamMetrics_null_average (ms : MetricsService) (d : Deployment.t) :
  verdict (db ms) = None ->
  In d (deployments (db ms)) ->
  filter is_success
    (deployments_of (Deployment.Team d) (deployments (db ms))) = [] ->
  GetTeamMetrics ms
  = Err ("scan failed: " ++ null_scan_error 4 "avg_duration" "float64").
Proof.
  intros Hrun Hd Hnone. unfold GetTeamMetrics, DB_Query. rewrite Hrun.
  apply scan_rows_Err.
  - intros r e _ He. now apply Scan_TeamMetrics_Err in He.
  - set (ds := deployments (db ms)) in *.
    set (g := (Deployment.Team d, filter (has_key string_dec Deployment.Team
                                            (Deployment.Team d)) ds)).
    exists (team_metrics_row g). split.
    + unfold select_team_metrics. apply ORDER_BY_In, in_map.
      unfold GROUP_BY. fold ds.
      apply (in_map (fun k => (k, filter (has_key string_dec Deployment.Team k) ds))).
      apply nodup_In. now apply in_map.
    + unfold Scan_TeamMetrics. rewrite team_metrics_row_avg.
      unfold g. cbn [snd]. rewrite has_key_Team, Hnone. reflexivity.
Qed.

(** C2, at the failing input: the only deployment of team alpha failed, and
    [GetTeamMetrics] returns the scan error instead of a row for alpha with
    no average. *)
Theorem GetTeamMetrics_fails_without_success :
  GetTeamMetrics failed_only_service
  = Err ("scan failed: sql: Scan error on column index 4, name "
         ++ dquote ++ "avg_duration" ++ dquote
         ++ ": converting NULL to float64 is unsupported").
Proof. vm_compute. reflexivity. Qed.

(** ** The aggregation engine *)

Lemma run_answered_verdict (q : Statement) (d : DB) :
  verdict (run q (answered d)) = verdict (answered d).
Proof. now destruct q. Qed.

(** The three ways in which a cycle ends. *)
Lemma aggregateMetrics_cases (ms : MetricsService) :
  let d := db ms in
  let d1 := run CreateOrReplace_daily_team_summary (answered d) in
  match verdict d, verdict (answered d) with
  | Some e, _ =>
      aggregateMetrics ms
      = ({| db := answered d |}, Some ("aggregation query failed: " ++ e))
  | None, Some e =>
      aggregateMetrics ms
      = ({| db := answered d1 |}, Some ("aggregation query failed: " ++ e))
  | None, None =>
      aggregateMetrics ms
      = ({| db := run CreateOrReplace_team_rankings (answered d1) |}, None)
  end.
Proof.
  intros d d1. unfold aggregateMetrics, exec_each, DB_Exec. fold d.
  destruct (verdict d) as [e|] eqn:E1; [reflexivity|]. fold d1.
  assert (E : verdict d1 = verdict (answered d)) by apply run_answered_verdict.
  rewrite E. now destruct (verdict (answered d)).
Qed.

(** A cycle without error has replaced both derived tables by the rollups of
    the raw table, which it leaves alone. *)
Lemma aggregateMetrics_done (ms ms' : MetricsService) :
  aggregateMetrics ms = (ms', None) ->
  deployments (db ms') = deployments (db ms)
  /\ daily_team_summary (db ms')
     = Some (select_daily_team_summary (deployments (db ms)))
  /\ team_rankings (db ms')
     = Some (select_team_rankings (deployments (db ms))).
Proof.
  pose proof (aggregateMetrics_cases ms) as H. cbv zeta in H.
  destruct (verdict (db ms)); [rewrite H; discriminate|].
  destruct (verdict (answered (db ms))); rewrite H; [discriminate|].
  intros E. injection E as <-. now repeat split.
Qed.

(** When the engine runs both statements, the cycle ends without error. *)
Lemma aggregateMetrics_runs (ms : MetricsService) :
  verdict (db ms) = None -> verdict (answered (db ms)) = None ->
  exists ms', aggregateMetrics ms = (ms', None).
Proof.
  intros E1 E2. pose proof (aggregateMetrics_cases ms) as H. cbv zeta in H.
  rewrite E1, E2 in H. eexists. exact H.
Qed.

(** C3, as the program has it: a cycle that fails reports the error and
    leaves the raw table and [team_rankings] as they were.
    [daily_team_summary] is left as it was when the engine refused the first
    statement; when it refused the second one, [daily_team_summary] has
    already been replaced by the rollup of the raw table. *)
Theorem aggregateMetrics_failure (ms ms' : MetricsService) (err : string) :
  aggregateMetrics ms = (ms', Some err) ->
  deployments (db ms') = deployments (db ms)
  /\ team_rankings (db ms') = team_rankings (db ms)
  /\ ((exists e, verdict (db ms) = Some e
                 /\ err = "aggregation query failed: " ++ e
                 /\ daily_team_summary (db ms') = daily_team_summary (db ms))
      \/ (exists e, verdict (db ms) = None
                    /\ verdict (answered (db ms)) = Some e
                    /\ err = "aggregation query failed: " ++ e
                    /\ daily_team_summary (db ms')
                       = Some (select_daily_team_summary (deployments (db ms))))).
Proof.
  pose proof (aggregateMetrics_cases ms) as H. cbv zeta in H.
  destruct (verdict (db ms)) as [e1|] eqn:E1.
  - rewrite H. intros E. injection E as <- <-.
    repeat split. left. exists e1. now repeat split.
  - destruct (verdict (answered (db ms))) as [e2|] eqn:E2;
      rewrite H; [|discriminate].
    intros E. injection E as <- <-.
    repeat split. right. exists e2. now repeat split.
Qed.

Lemma aggregateMetrics_failure_witness :
  exists ms' err,
    aggregateMetrics interrupted_service = (ms', Some err)
    /\ deployments (db ms') = sample_deployments
    /\ team_rankings (db ms') = None
    /\ daily_team_summary (db ms')
       = Some (select_daily_team_summary sample_deployments).
Proof.
  eexists. eexists.
  assert (E : aggregateMetrics interrupted_service
              = (fst (aggregateMetrics interrupted_service),
                 Some "aggregation query failed: IO Error: could not write to file"))
    by (vm_compute; reflexivity).
  split; [exact E|].
  destruct (aggregateMetrics_failure interrupted_service _ _ E)
    as (Hd & Hr & [(e & Hv & _) | (e & _ & _ & _ & Hs)]).
  - discriminate Hv.
  - split; [exact Hd | split; [exact Hr | exact Hs]].
Defined.

(** C3, as stated, fails: the engine runs the first statement and refuses
    the second; the cycle reports the failure, and [daily_team_summary] is
    no longer what it was before the cycle. *)
Lemma aggregateMetrics_not_atomic :
  exists ms' err,
    aggregateMetrics interrupted_service = (ms', Some err)
    /\ daily_team_summary (db ms')
       <> daily_team_summary (db interrupted_service).
Proof.
  eexists. eexists. split; [vm_compute; reflexivity|].
  vm_compute. discriminate.
Qed.

(** The cycle as [aggregateMetrics] computes it is one of the outcomes. *)
Lemma aggregateMetrics_is_outcome (ms ms' : MetricsService) (err : option string) :
  aggregateMetrics ms = (ms', err) -> aggregateMetrics_outcome ms ms' err.
Proof.
  pose proof (aggregateMetrics_cases ms) as H. cbv zeta in H.
  unfold aggregateMetrics_outcome.
  destruct (verdict (db ms)) as [e1|] eqn:E1.
  - rewrite H. intros E. injection E as <- <-. cbn [db].
    apply cycle_failed. now apply Exec_refused.
  - set (d1 := run CreateOrReplace_daily_team_summary (answered (db ms))) in *.
    assert (S1 : Exec_outcome (db ms) CreateOrReplace_daily_team_summary d1 None).
    { apply Exec_stored; [exact E1|]. eexists. split; [apply Permutation_refl|].
      reflexivity. }
    assert (V : verdict d1 = verdict (answered (db ms)))
      by apply run_answered_verdict.
    destruct (verdict (answered (db ms))) as [e2|] eqn:E2; rewrite H;
      intros E; injection E as <- <-; cbn [db];
      apply (cycle_next _ d1); try exact S1.
    + apply cycle_failed. now apply Exec_refused.
    + apply (cycle_next _ (run CreateOrReplace_team_rankings (answered d1))).
      * apply Exec_stored; [exact V|]. eexists.
        split; [apply Permutation_refl | reflexivity].
      * apply cycle_done.
Qed.

(** A cycle without error leaves the raw table alone and stores, in some
    order, the rows of the two rollups. *)
Lemma aggregateMetrics_outcome_done (ms ms' : MetricsService) :
  aggregateMetrics_outcome ms ms' None ->
  deployments (db ms') = deployments (db ms)
  /\ exists summary rankings,
       daily_team_summary (db ms') = Some summary
       /\ team_rankings (db ms') = Some rankings
       /\ Permutation (select_daily_team_summary (deployments (db ms))) summary
       /\ Permutation (select_team_rankings (deployments (db ms))) rankings.
Proof.
  unfold aggregateMetrics_outcome.
  generalize (db ms) (db ms'). clear ms ms'. intros d d' H.
  inversion H as [| |d0 d1 d0' q rest err S1 C1]; subst.
  inversion S1 as [|d1' V1 (rows1 & P1 & E1)]; subst.
  inversion C1 as [| |d0 d2 d0' q rest err S2 C2]; subst.
  inversion S2 as [|d2' V2 (rows2 & P2 & E2)]; subst.
  inversion C2; subst.
  cbn. split; [reflexivity|]. exists rows1, rows2. now repeat split.
Qed.

(** C4, as the program has it: two cycles in a row over the same raw table,
    both without error, leave derived tables that hold the same rows as
    after the first cycle; the order in which the rows are stored is the
    engine's and need not be the same. *)
Theorem aggregateMetrics_same_rows (ms ms1 ms2 : MetricsService) :
  aggregateMetrics_outcome ms ms1 None ->
  aggregateMetrics_outcome ms1 ms2 None ->
  deployments (db ms2) = deployments (db ms)
  /\ exists summary1 summary2 rankings1 rankings2,
       daily_team_summary (db ms1) = Some summary1
       /\ daily_team_summary (db ms2) = Some summary2
       /\ Permutation summary1 summary2
       /\ team_rankings (db ms1) = Some rankings1
       /\ team_rankings (db ms2) = Some rankings2
       /\ Permutation rankings1 rankings2.
Proof.
  intros H1 H2.
  apply aggregateMetrics_outcome_done in H1 as (D1 & s1 & r1 & Hs1 & Hr1 & Ps1 & Pr1).
  apply aggregateMetrics_outcome_done in H2 as (D2 & s2 & r2 & Hs2 & Hr2 & Ps2 & Pr2).
  rewrite D1 in *. split; [exact D2|].
  exists s1, s2, r1, r2. repeat split; try assumption.
  - now rewrite <- Ps1.
  - now rewrite <- Pr1.
Qed.

Lemma aggregated_then_reordered :
  aggregateMetrics_outcome sample_service aggregated_service None
  /\ aggregateMetrics_outcome aggregated_service reordered_service None.
Proof.
  split.
  - apply aggregateMetrics_is_outcome. vm_compute. reflexivity.
  - unfold aggregateMetrics_outcome.
    apply (cycle_next _
             {| deployments := sample_deployments;
                daily_team_summary :=
                  Some (rev (select_daily_team_summary sample_deployments));
                team_rankings := team_rankings (db aggregated_service);
                current_date := new_year;
                verdicts := [] |}).
    + apply Exec_stored; [reflexivity|]. eexists.
      split; [apply Permutation_rev | reflexivity].
    + apply (cycle_next _ (db reordered_service)); [|apply cycle_done].
      apply Exec_stored; [reflexivity|]. eexists.
      split; [apply Permutation_rev | reflexivity].
Qed.

Lemma aggregateMetrics_same_rows_witness :
  deployments (db reordered_service) = deployments (db sample_service)
  /\ exists summary1 summary2 rankings1 rankings2,
       daily_team_summary (db aggregated_service) = Some summary1
       /\ daily_team_summary (db reordered_service) = Some summary2
       /\ Permutation summary1 summary2
       /\ team_rankings (db aggregated_service) = Some rankings1
       /\ team_rankings (db reordered_service) = Some rankings2
       /\ Permutation rankings1 rankings2.
Proof.
  apply (aggregateMetrics_same_rows sample_service aggregated_service
           reordered_service);
    apply aggregated_then_reordered.
Defined.

(** C4, as stated, fails: after a cycle on the sample store, a second cycle
    over the unchanged raw table may store the rows of both derived tables
    in the opposite order; the tables hold the same rows and are not
    identical. *)
Lemma aggregateMetrics_order_differs :
  aggregateMetrics_outcome sample_service aggregated_service None
  /\ aggregateMetrics_outcome aggregated_service reordered_service None
  /\ deployments (db reordered_service) = deployments (db sample_service)
  /\ daily_team_summary (db reordered_service)
     <> daily_team_summary (db aggregated_service)
  /\ team_rankings (db reordered_service)
     <> team_rankings (db aggregated_service).
Proof.
  destruct aggregated_then_reordered as [H1 H2].
  split; [exact H1|]. split; [exact H2|]. split; [reflexivity|].
  split; vm_compute; discriminate.
Qed.

(** ** The daily series *)

Lemma ORDER_BY_nil_inv {R : Type} (before : R -> R -> bool) (l : list R) :
  ORDER_BY before l = [] -> l = [].
Proof.
  intros H. apply Permutation_nil. rewrite <- H. apply ORDER_BY_perm.
Qed.

(** The statement of the daily series has no row exactly when no deployment
    passes its WHERE clause. *)
Lemma select_daily_metrics_nil (teamParam : option string) (days : Z) (d : DB) :
  select_daily_metrics teamParam days d = [] <->
  forall r, In r (deployments d) -> in_window d teamParam days r = false.
Proof.
  unfold select_daily_metrics. split.
  - intros H r Hr. apply ORDER_BY_nil_inv, map_eq_nil, GROUP_BY_nil_inv in H.
    destruct (in_window d teamParam days r) eqn:E; [|reflexivity].
    assert (Hin : In r (filter (in_window d teamParam days) (deployments d)))
      by (apply filter_In; now split).
    rewrite H in Hin. destruct Hin.
  - intros H.
    assert (Hnil : filter (in_window d teamParam days) (deployments d) = []).
    { destruct (filter (in_window d teamParam days) (deployments d))
        as [|r l] eqn:E; [reflexivity|].
      assert (Hr : In r (filter (in_window d teamParam days) (deployments d)))
        by (rewrite E; now left).
      apply filter_In in Hr as [Hr Hw]. rewrite (H r Hr) in Hw. discriminate. }
    now rewrite Hnil.
Qed.

(** C5, as the program has it: when the engine runs the statement,
    [GetDailyMetrics] returns the empty sequence and no error exactly when
    every deployment of the requested team (every deployment, without a
    team) is dated before the start of the window, midnight of the current
    date minus [days] days.  The window has no end: with [days = 0] the
    deployments dated on the current date or later are returned. *)
Theorem GetDailyMetrics_empty_iff (ms : MetricsService) (team : string) (days : Z) :
  verdict (db ms) = None ->
  GetDailyMetrics ms team days = Ok [] <->
  forall r, In r (deployments (db ms)) ->
            team = "" \/ Deployment.Team r = team ->
            Deployment.Timestamp r < window_start (db ms) days.
Proof.
  intros Hrun. unfold GetDailyMetrics, DB_Query. rewrite Hrun.
  set (teamParam := if String.eqb team "" then None else Some team).
  assert (Hteam : forall r, team_matches teamParam r = true
                            <-> team = "" \/ Deployment.Team r = team).
  { intros r. unfold teamParam. destruct (String.eqb_spec team "") as [E|NE]; simpl.
    - split; [now left | reflexivity].
    - rewrite String.eqb_eq. split; [now right | now intros [E|E]]. }
  assert (Hwin : forall r, in_window (db ms) teamParam days r = false <->
                           (team = "" \/ Deployment.Team r = team ->
                            Deployment.Timestamp r < window_start (db ms) days)).
  { intros r. unfold in_window. rewrite andb_false_iff, Z.leb_gt.
    rewrite <- Hteam. destruct (team_matches teamParam r); split.
    - intros [E|E] _; [discriminate | exact E].
    - intros H. right. now apply H.
    - intros _ E. discriminate.
    - intros _. now left. }
  split.
  - intros H r Hr. apply Hwin. revert r Hr. apply select_daily_metrics_nil.
    apply scan_rows_Ok in H as (l & Hl & Hall).
    destruct l; [|discriminate]. now inversion Hall.
  - intros H.
    assert (Hnil : select_daily_metrics teamParam days (db ms) = []).
    { apply select_daily_metrics_nil. intros r Hr. apply Hwin. now apply H. }
    now rewrite Hnil.
Qed.

Lemma GetDailyMetrics_empty_iff_witness :
  GetDailyMetrics earlier_service "" 0 = Ok [].
Proof.
  apply (GetDailyMetrics_empty_iff earlier_service "" 0); [reflexivity|].
  intros r [<-|[<-|[]]] _; vm_compute; reflexivity.
Defined.

(** C5, as stated, fails.  With [days = 0] a deployment dated on the current
    date is returned; and a deployment dated on the day after the current
    date is returned although the seven-day window up to the current date
    lies before it. *)
Lemma GetDailyMetrics_window_not_empty :
  GetDailyMetrics today_service "" 0
  = Ok [DailyMetrics.mk "2024-01-01" "alpha" 1 1 10]
  /\ GetDailyMetrics tomorrow_service "" 7
     = Ok [DailyMetrics.mk "2024-01-02" "alpha" 1 1 10].
Proof. split; vm_compute; reflexivity. Qed.

(** ** The boundary of the daily handler *)

(** Without a sign in front, [Atoi] reads the whole text as digits. *)
Lemma Atoi_unsigned (c : ascii) (rest : string) :
  c <> "-"%char -> c <> "+"%char ->
  Atoi (String c rest) = in_range (parse_digits (String c rest)).
Proof.
  intros Hminus Hplus. unfold Atoi.
  destruct c as [[] [] [] [] [] [] [] []]; try reflexivity; congruence.
Qed.

Lemma Atoi_negative (rest : string) :
  Atoi (String "-" rest) = in_range (option_map Z.opp (parse_digits rest)).
Proof. reflexivity. Qed.

Lemma string_of_uint_head (d : Decimal.uint) :
  d <> Decimal.Nil ->
  exists c rest, NilZero.string_of_uint d = String c rest
                 /\ c <> "-"%char /\ c <> "+"%char.
Proof.
  destruct d; [congruence|..]; intros _; eexists; eexists;
    (split; [reflexivity | split; discriminate]).
Qed.

Lemma parse_digits_to_uint (p : positive) :
  parse_digits (NilZero.string_of_uint (Pos.to_uint p)) = Some (Z.pos p).
Proof.
  unfold parse_digits.
  rewrite NilZero.usu by apply Unsigned.to_uint_nonnil.
  simpl. f_equal. exact (DecimalZ.of_to (Z.pos p)).
Qed.

(** [Atoi] reads back what [Itoa] prints. *)
Lemma Atoi_Itoa (n : Z) : minInt <= n <= maxInt -> Atoi (Itoa n) = Ok n.
Proof.
  intros Hn.
  assert (Hr : (minInt <=? n) && (n <=? maxInt) = true).
  { apply andb_true_iff. split; apply Z.leb_le; lia. }
  destruct n as [|p|p]; [reflexivity| |].
  - unfold Itoa. cbn [Z.to_int NilZero.string_of_int].
    destruct (string_of_uint_head (Pos.to_uint p) (Unsigned.to_uint_nonnil p))
      as (c & rest & E & Hm & Hp).
    pose proof (parse_digits_to_uint p) as Hd. rewrite E in *.
    rewrite (Atoi_unsigned c rest Hm Hp), Hd. unfold in_range. now rewrite Hr.
  - unfold Itoa. cbn [Z.to_int NilZero.string_of_int].
    change (String (Ascii true false true true false true false false) ?s)
      with (String "-" s).
    rewrite Atoi_negative, parse_digits_to_uint. cbn [option_map Z.opp in_range].
    now rewrite Hr.
Qed.

(** C6, as the program has it: the handler passes to [GetDailyMetrics] the
    integer that the [days] parameter spells, whatever its sign, and 30
    when the parameter is absent or is not the decimal text of a 64-bit
    integer.  Nothing at the boundary asks for a positive value. *)
Theorem getDailyMetrics_days (h : Handler) (c : Context) :
  getDailyMetrics h c
  = daily_response (GetDailyMetrics (service h) (Context_Query c "team")
                      (snd (daily_arguments c)))
  /\ (forall n, minInt <= n <= maxInt -> GetQuery c "days" = Some (Itoa n) ->
                snd (daily_arguments c) = n)
  /\ (GetQuery c "days" = None -> snd (daily_arguments c) = 30)
  /\ (forall s e, GetQuery c "days" = Some s -> Atoi s = Err e ->
                  snd (daily_arguments c) = 30).
Proof.
  split; [reflexivity|]. unfold daily_arguments, DefaultQuery. cbn [snd].
  repeat split.
  - intros n Hn E. now rewrite E, Atoi_Itoa.
  - intros E. now rewrite E.
  - intros s e E Hs. now rewrite E, Hs.
Qed.

Lemma getDailyMetrics_days_witness :
  snd (daily_arguments [("days", "0")]) = 0
  /\ snd (daily_arguments [("team", "alpha")]) = 30
  /\ snd (daily_arguments [("days", "soon")]) = 30.
Proof.
  pose (h := {| service := sample_service |}).
  split; [|split].
  - apply (proj1 (proj2 (getDailyMetrics_days h [("days", "0")])) 0);
      [vm_compute; split; discriminate | reflexivity].
  - apply (proj1 (proj2 (proj2 (getDailyMetrics_days h [("team", "alpha")])))).
    reflexivity.
  - apply (proj2 (proj2 (proj2 (getDailyMetrics_days h [("days", "soon")])))
             "soon" ErrSyntax); reflexivity.
Defined.

(** C6, as stated, fails: the request [?days=-5] makes the handler call
    [GetDailyMetrics] with [days = -5]. *)
Lemma getDailyMetrics_negative_days :
  daily_arguments [("days", "-5")] = ("", -5)
  /\ getDailyMetrics {| service := sample_service |} [("days", "-5")]
     = daily_response (GetDailyMetrics sample_service "" (-5)).
Proof. split; reflexivity. Qed.

(** ** Ranking *)

Lemma COUNT_filter_app {A : Type} (f : A -> bool) (l1 l2 : list A) :
  COUNT (filter f (l1 ++ l2)%list) = COUNT (filter f l1) + COUNT (filter f l2).
Proof. rewrite filter_app. unfold COUNT. rewrite length_app. lia. Qed.

Lemma COUNT_filter_perm {A : Type} (f : A -> bool) (l1 l2 : list A) :
  Permutation l1 l2 -> COUNT (filter f l1) = COUNT (filter f l2).
Proof.
  induction 1 as [|x l1 l2 _ IH|x y l|l1 l2 l3 _ IH1 _ IH2]; simpl.
  - reflexivity.
  - destruct (f x); rewrite ?COUNT_cons; lia.
  - destruct (f x), (f y); reflexivity.
  - lia.
Qed.

Lemma COUNT_filter_map {A B : Type} (f : B -> bool) (g : A -> B) (l : list A) :
  COUNT (filter f (map g l)) = COUNT (filter (fun x => f (g x)) l).
Proof.
  induction l as [|x l IH]; simpl; [reflexivity|].
  destruct (f (g x)); rewrite ?COUNT_cons; lia.
Qed.

Lemma COUNT_filter_all {A : Type} (f : A -> bool) (l : list A) :
  (forall x, In x l -> f x = true) -> COUNT (filter f l) = COUNT l.
Proof.
  induction l as [|x l IH]; intros H; simpl; [reflexivity|].
  rewrite (H x (or_introl eq_refl)), !COUNT_cons, IH; [reflexivity|].
  intros y Hy. apply H. now right.
Qed.

Lemma COUNT_filter_none {A : Type} (f : A -> bool) (l : list A) :
  (forall x, In x l -> f x = false) -> COUNT (filter f l) = 0.
Proof.
  induction l as [|x l IH]; intros H; simpl; [reflexivity|].
  rewrite (H x (or_introl eq_refl)). apply IH. intros y Hy. apply H. now right.
Qed.

Section WindowFacts.
Context {R V : Type}.
Variable leb : V -> V -> bool.
Variable val : R -> V.
Hypothesis leb_total : forall a b, leb a b = false -> leb b a = true.
Hypothesis leb_trans :
  forall a b c, leb a b = true -> leb b c = true -> leb a c = true.

Lemma leb_refl (a : V) : leb a a = true.
Proof.
  destruct (leb a a) eqn:E; [reflexivity|].
  pose proof (leb_total _ _ E). congruence.
Qed.

Lemma ahead_app (v : V) (l1 l2 : list R) :
  ahead leb val v (l1 ++ l2)%list = ahead leb val v l1 + ahead leb val v l2.
Proof. apply COUNT_filter_app. Qed.

Lemma rank_rows_fst (n : Z) (prev : option (V * Z)) (rows : list R) :
  map fst (rank_rows leb val n prev rows) = rows.
Proof.
  revert n prev. induction rows as [|r rows IH]; intros n prev; simpl;
    [reflexivity | now rewrite IH].
Qed.

(** The walk over an ordered partition: [pre] holds the rows that the walk
    has passed, [rows] the rows to come. *)
Lemma rank_rows_ahead (rows pre : list R) (n : Z) (prev : option (V * Z)) :
  n = 1 + COUNT pre ->
  StronglySorted (fun a b => desc leb val a b = true) rows ->
  (forall x y, In x pre -> In y rows -> leb (val y) (val x) = true) ->
  match prev with
  | None => pre = []
  | Some (pv, pk) =>
      (exists p, In p pre /\ val p = pv)
      /\ (forall x, In x pre -> leb pv (val x) = true)
      /\ pk = 1 + ahead leb val pv pre
  end ->
  forall r k, In (r, k) (rank_rows leb val n prev rows) ->
              k = 1 + ahead leb val (val r) (pre ++ rows)%list.
Proof.
  revert pre n prev.
  induction rows as [|r rows IH]; intros pre n prev Hn Hs Hpre Hprev x kx Hin;
    [destruct Hin|].
  apply StronglySorted_inv in Hs as [Hs Hr]. rewrite Forall_forall in Hr.
  set (k := match prev with
            | Some (pv, pk) => if peer leb (val r) pv then pk else n
            | None => n
            end) in *.
  assert (Hrest : ahead leb val (val r) (r :: rows) = 0).
  { apply COUNT_filter_none. intros y [<-|Hy].
    - now rewrite leb_refl.
    - apply Hr in Hy. unfold desc in Hy. now rewrite Hy. }
  assert (Hk : k = 1 + ahead leb val (val r) pre).
  { unfold k. destruct prev as [[pv pk]|].
    - destruct Hprev as ((p & Hp & <-) & Hge & ->).
      assert (Hrp : leb (val r) (val p) = true)
        by (apply Hpre; [exact Hp | now left]).
      unfold peer. rewrite Hrp. cbn [andb].
      destruct (leb (val p) (val r)) eqn:Hpr.
      + f_equal. unfold ahead. f_equal. apply filter_ext. intros y.
        f_equal. destruct (leb (val y) (val p)) eqn:E1.
        * symmetry. now apply leb_trans with (val p).
        * destruct (leb (val y) (val r)) eqn:E2; [|reflexivity].
          rewrite (leb_trans _ _ _ E2 Hrp) in E1. discriminate.
      + f_equal. unfold ahead. rewrite COUNT_filter_all; [lia|].
        intros y Hy. destruct (leb (val y) (val r)) eqn:E; [|reflexivity].
        rewrite (leb_trans _ _ _ (Hge y Hy) E) in Hpr. discriminate.
    - subst pre. rewrite Hn. reflexivity. }
  destruct Hin as [E|Hin].
  - injection E as Hx Hkx. rewrite <- Hx, <- Hkx, ahead_app. lia.
  - replace (pre ++ r :: rows)%list with ((pre ++ [r]) ++ rows)%list
      by (rewrite <- app_assoc; reflexivity).
    apply (IH (pre ++ [r])%list (n + 1) (Some (val r, k))); try assumption.
    + unfold COUNT in *. rewrite length_app. simpl List.length. lia.
    + intros a b Ha Hb. apply in_app_or in Ha as [Ha|[<-|[]]].
      * apply Hpre; [exact Ha | now right].
      * apply Hr in Hb. exact Hb.
    + split; [|split].
      * exists r. split; [apply in_or_app; right; now left | reflexivity].
      * intros a Ha. apply in_app_or in Ha as [Ha|[<-|[]]].
        -- apply Hpre; [exact Ha | now left].
        -- apply leb_refl.
      * rewrite ahead_app. unfold ahead at 2. simpl filter.
        rewrite leb_refl. cbn [negb]. change (COUNT []) with 0. lia.
Qed.

(** [RANK() OVER (ORDER BY val DESC)] gives a row one more than the number
    of rows of the partition whose value is greater. *)
Lemma RANK_OVER_ahead (rows : list R) (r : R) (k : Z) :
  In (r, k) (RANK_OVER leb val rows) -> In r rows /\ k = 1 + ahead leb val (val r) rows.
Proof.
  unfold RANK_OVER. intros Hin. split.
  - apply (in_map fst) in Hin. rewrite rank_rows_fst in Hin.
    now apply ORDER_BY_In in Hin.
  - apply (rank_rows_ahead _ [] 1 None) in Hin.
    + rewrite Hin. f_equal. apply COUNT_filter_perm, ORDER_BY_perm.
    + reflexivity.
    + apply Sorted_StronglySorted.
      * intros a b c Hab Hbc. unfold desc in *. now apply leb_trans with (val b).
      * apply ORDER_BY_sorted. intros a b. unfold desc. apply leb_total.
    + intros x y [].
    + reflexivity.
Qed.

(** The rows of the window are the rows of its input. *)
Lemma RANK_OVER_perm (rows : list R) :
  Permutation (map fst (RANK_OVER leb val rows)) rows.
Proof. unfold RANK_OVER. rewrite rank_rows_fst. apply ORDER_BY_perm. Qed.
End WindowFacts.

Lemma Qle_bool_total (a b : Q) : Qle_bool a b = false -> Qle_bool b a = true.
Proof.
  intros H. apply Qle_bool_iff, Qlt_le_weak, Qnot_le_lt.
  intros Hle. apply Qle_bool_iff in Hle. congruence.
Qed.

Lemma Qle_bool_trans (a b c : Q) :
  Qle_bool a b = true -> Qle_bool b c = true -> Qle_bool a c = true.
Proof. rewrite !Qle_bool_iff. apply Qle_trans. Qed.

Lemma Zleb_total (a b : Z) : (a <=? b) = false -> (b <=? a) = true.
Proof. rewrite Z.leb_gt, Z.leb_le. lia. Qed.

Lemma Zleb_trans (a b c : Z) :
  (a <=? b) = true -> (b <=? c) = true -> (a <=? c) = true.
Proof. rewrite !Z.leb_le. lia. Qed.

(** The grouped rows of the ranking statement, team by team. *)
Lemma team_counts_groups (ds : list Deployment.t) :
  map team_counts (GROUP_BY string_dec Deployment.Team ds)
  = map (counts_of ds) (teams ds).
Proof.
  unfold GROUP_BY, teams. rewrite map_map. apply map_ext. intros t.
  unfold team_counts, counts_of. cbn [fst snd]. now rewrite has_key_Team.
Qed.

(** The ranks of the statement behind [team_rankings]: every team of the
    deployments table has its row; its success rank is one more than the
    number of teams with a greater success percentage, its velocity rank
    one more than the number of teams with more deployments. *)
Lemma select_team_rankings_ranks (ds : list Deployment.t) :
  Permutation (map tr_team (select_team_rankings ds)) (teams ds)
  /\ forall row, In row (select_team_rankings ds) ->
       tr_success_rank row
       = 1 + COUNT (filter (fun t => negb (Qle_bool (team_pct ds t)
                                             (team_pct ds (tr_team row))))
                      (teams ds))
       /\ tr_velocity_rank row
          = 1 + COUNT (filter (fun t => negb (COUNT (deployments_of t ds)
                                              <=? COUNT (deployments_of (tr_team row) ds)))
                         (teams ds)).
Proof.
  unfold select_team_rankings. rewrite team_counts_groups.
  set (groups := map (counts_of ds) (teams ds)).
  set (by_success := RANK_OVER Qle_bool success_pct groups).
  set (by_velocity := RANK_OVER Z.leb (fun p => tc_total (fst p)) by_success).
  assert (P1 : Permutation (map fst by_success) groups)
    by apply RANK_OVER_perm.
  assert (P2 : Permutation (map fst by_velocity) by_success)
    by apply RANK_OVER_perm.
  split.
  - rewrite map_map. cbn [tr_team].
    replace (teams ds) with (map tc_team groups)
      by (unfold groups; rewrite map_map; apply map_id).
    rewrite <- P1, <- P2, !map_map. reflexivity.
  - intros row Hrow. apply in_map_iff in Hrow as ([[c sr] vr] & <- & Hp).
    cbn [tr_team tr_success_rank tr_velocity_rank fst snd].
    apply (RANK_OVER_ahead Z.leb _ Zleb_total Zleb_trans) in Hp as [Hc Hvr].
    apply (RANK_OVER_ahead Qle_bool _ Qle_bool_total Qle_bool_trans) in Hc
      as [Hc Hsr].
    unfold groups in Hc. apply in_map_iff in Hc as (t & <- & Ht).
    cbn [tc_team fst] in *. split.
    + rewrite Hsr. unfold ahead, groups. now rewrite COUNT_filter_map.
    + rewrite Hvr. unfold ahead.
      rewrite <- (COUNT_filter_map
                    (fun c => negb (tc_total c <=? tc_total (counts_of ds t))) fst).
      rewrite (COUNT_filter_perm _ _ _ P1). unfold groups.
      now rewrite COUNT_filter_map.
Qed.

(** C1, as the program has it: after a cycle without error, [team_rankings]
    has one row for every team of the deployments table; tied teams share a
    rank, and the rank of a team is one more than the number of teams with a
    greater value (success percentage, or deployment count), so that the
    rank after a tie of several teams skips the ranks in between. *)
Theorem team_rankings_rank (ms ms' : MetricsService) :
  aggregateMetrics ms = (ms', None) ->
  let ds := deployments (db ms) in
  exists table,
    team_rankings (db ms') = Some table
    /\ Permutation (map tr_team table) (teams ds)
    /\ forall row, In row table ->
         tr_success_rank row
         = 1 + COUNT (filter (fun t => negb (Qle_bool (team_pct ds t)
                                               (team_pct ds (tr_team row))))
                        (teams ds))
         /\ tr_velocity_rank row
            = 1 + COUNT (filter (fun t => negb (COUNT (deployments_of t ds)
                                                <=? COUNT (deployments_of (tr_team row) ds)))
                           (teams ds)).
Proof.
  intros Hok ds. apply aggregateMetrics_done in Hok as (_ & _ & Hr).
  exists (select_team_rankings ds). split; [exact Hr|].
  apply select_team_rankings_ranks.
Qed.

Lemma team_rankings_rank_witness :
  exists table,
    team_rankings (db (fst (aggregateMetrics tie_service))) = Some table
    /\ Permutation (map tr_team table) ["a"; "b"; "c"]
    /\ forall row, In row table ->
         tr_success_rank row
         = 1 + COUNT (filter (fun t => negb (Qle_bool
                                 (team_pct (deployments (db tie_service)) t)
                                 (team_pct (deployments (db tie_service)) (tr_team row))))
                        ["a"; "b"; "c"])
         /\ tr_velocity_rank row
            = 1 + COUNT (filter (fun t => negb
                                   (COUNT (deployments_of t (deployments (db tie_service)))
                                    <=? COUNT (deployments_of (tr_team row)
                                                 (deployments (db tie_service)))))
                           ["a"; "b"; "c"]).
Proof.
  apply (team_rankings_rank tie_service (fst (aggregateMetrics tie_service))).
  vm_compute. reflexivity.
Defined.

(** C1, as stated, fails: teams a and b tie on the first success rank, and
    team c, the next one, has success rank 3 in [team_rankings]; the dense
    rank of the specification is 2. *)
Lemma team_rankings_not_dense :
  team_rankings (db (fst (aggregateMetrics tie_service)))
  = Some [ {| tr_team := "c"; tr_success_rank := 3; tr_velocity_rank := 1 |};
           {| tr_team := "a"; tr_success_rank := 1; tr_velocity_rank := 2 |};
           {| tr_team := "b"; tr_success_rank := 1; tr_velocity_rank := 2 |} ]
  /\ select_team_rankings_dense (deployments (db tie_service))
     = [ {| tr_team := "c"; tr_success_rank := 2; tr_velocity_rank := 1 |};
         {| tr_team := "a"; tr_success_rank := 1; tr_velocity_rank := 2 |};
         {| tr_team := "b"; tr_success_rank := 1; tr_velocity_rank := 2 |} ].
Proof. split; vm_compute; reflexivity. Qed.


(** * Further properties *)

(** ** The daily series: rows, counts and order *)

Lemma scan_rows_all_Ok {Row T : Type} (scan : Row -> result string T)
  (rows : list Row) (acc : list T) :
  (forall r, In r rows -> exists m, scan r = Ok m) ->
  exists ms, scan_rows scan rows acc = Ok ms.
Proof.
  revert acc. induction rows as [|r rows IH]; intros acc H; simpl.
  - now exists acc.
  - destruct (H r (or_introl eq_refl)) as (m & ->).
    apply IH. intros r' Hr'. apply H. now right.
Qed.

Lemma non_null_Some {A : Type} (f : A -> Z) (l : list A) :
  non_null (map (fun r => Some (f r)) l) = map f l.
Proof. induction l as [|x l IH]; simpl; [reflexivity | now rewrite IH]. Qed.

(** The average of a NOT NULL column over a group that holds a row. *)
Lemma AVG_not_null {A : Type} (f : A -> Z) (l : list A) :
  l <> [] ->
  AVG (map (fun r => Some (f r)) l)
  = Some (inject_Z (SUM (map f l)) / inject_Z (COUNT (map f l)))%Q.
Proof.
  intros Hl. unfold AVG. rewrite non_null_Some.
  destruct l as [|x l]; [congruence | reflexivity].
Qed.

(** The deployments that pass the WHERE clause of the daily statement. *)
Lemma in_window_spec (d : DB) (team : string) (days : Z) (r : Deployment.t) :
  in_window d (if String.eqb team "" then None else Some team) days r
  = (String.eqb team "" || String.eqb (Deployment.Team r) team)
    && (window_start d days <=? Deployment.Timestamp r).
Proof. unfold in_window. now destruct (String.eqb team ""). Qed.

Lemma select_daily_metrics_In (teamParam : option string) (days : Z) (d : DB)
  (r : DailyMetricsRow) :
  In r (select_daily_metrics teamParam days d) ->
  exists g, In g (GROUP_BY key_dec day_team
                    (filter (in_window d teamParam days) (deployments d)))
            /\ r = daily_metrics_row g.
Proof.
  unfold select_daily_metrics. rewrite ORDER_BY_In, in_map_iff.
  intros (g & <- & Hg). now exists g.
Qed.

Lemma Scan_DailyMetrics_Ok (r : DailyMetricsRow) (m : DailyMetrics.t) :
  Scan_DailyMetrics r = Ok m ->
  DailyMetrics.Date m = Format_date (date r)
  /\ DailyMetrics.Team m = daily_team r
  /\ DailyMetrics.Deployments m = daily_deployments r
  /\ DailyMetrics.Successful m = daily_successful r
  /\ daily_avg_duration r = Some (DailyMetrics.AvgDuration m).
Proof.
  unfold Scan_DailyMetrics, Scan_float64.
  destruct (daily_avg_duration r); [|discriminate].
  intros H. injection H as <-. simpl. now repeat split.
Qed.

(** No row of the daily statement has a NULL average: its scan succeeds. *)
Lemma Scan_DailyMetrics_total (teamParam : option string) (days : Z) (d : DB)
  (r : DailyMetricsRow) :
  In r (select_daily_metrics teamParam days d) ->
  exists m, Scan_DailyMetrics r = Ok m.
Proof.
  intros Hr. apply select_daily_metrics_In in Hr as (g & Hg & ->).
  apply GROUP_BY_nonempty in Hg.
  unfold Scan_DailyMetrics. cbn [daily_metrics_row daily_avg_duration].
  rewrite (AVG_not_null _ _ Hg). cbn [option_map Scan_float64]. now eexists.
Qed.

Lemma GetDailyMetrics_Ok (ms : MetricsService) (team : string) (days : Z)
  (metrics : list DailyMetrics.t) :
  GetDailyMetrics ms team days = Ok metrics ->
  Forall2 (fun r m => Scan_DailyMetrics r = Ok m)
    (select_daily_metrics (if String.eqb team "" then None else Some team)
       days (db ms))
    metrics.
Proof.
  unfold GetDailyMetrics, DB_Query.
  destruct (verdict (db ms)); [discriminate|]. intros H.
  apply scan_rows_Ok in H as (l & -> & Hl). exact Hl.
Qed.

(** X1: [GetDailyMetrics] fails only when the engine refuses its statement,
    and then with the engine's error behind the prefix of the method; no
    deployment data makes its scan fail. *)
Theorem GetDailyMetrics_fails_only_on_engine (ms : MetricsService)
  (team : string) (days : Z) :
  match verdict (db ms) with
  | None => exists metrics, GetDailyMetrics ms team days = Ok metrics
  | Some e => GetDailyMetrics ms team days = Err ("query failed: " ++ e)
  end.
Proof.
  unfold GetDailyMetrics, DB_Query.
  destruct (verdict (db ms)) as [e|]; [reflexivity|].
  apply scan_rows_all_Ok. intros r Hr.
  now apply Scan_DailyMetrics_total in Hr.
Qed.

(** X2: with a team in the request, every element of the result of
    [GetDailyMetrics] is of that team. *)
Theorem GetDailyMetrics_team_filter (ms : MetricsService) (team : string)
  (days : Z) (metrics : list DailyMetrics.t) (m : DailyMetrics.t) :
  team <> "" ->
  GetDailyMetrics ms team days = Ok metrics -> In m metrics ->
  DailyMetrics.Team m = team.
Proof.
  intros Hteam Hok Hm. apply GetDailyMetrics_Ok in Hok.
  destruct (Forall2_In_r _ _ _ _ Hok Hm) as (r & Hr & Hscan).
  apply Scan_DailyMetrics_Ok in Hscan as (_ & -> & _).
  apply select_daily_metrics_In in Hr as (g & Hg & ->).
  apply GROUP_BY_In in Hg as [Hk _]. cbn [daily_metrics_row daily_team].
  apply in_map_iff in Hk as (x & <- & Hx). apply filter_In in Hx as [_ Hw].
  apply String.eqb_neq in Hteam. rewrite Hteam in Hw.
  unfold in_window, team_matches in Hw. apply andb_true_iff in Hw as [Hw _].
  now apply String.eqb_eq in Hw.
Qed.

Lemma GetDailyMetrics_team_filter_witness :
  DailyMetrics.Team (DailyMetrics.mk "2023-12-29" "beta" 1 1 5)
  = "beta".
Proof.
  apply (GetDailyMetrics_team_filter sample_service "beta" 30
           [DailyMetrics.mk "2023-12-29" "beta" 1 1 5]).
  - discriminate.
  - vm_compute. reflexivity.
  - now left.
Defined.

(** The deployment counts of a result add up to the deployments of the
    window. *)
Lemma GetDailyMetrics_sum (ms : MetricsService) (team : string) (days : Z)
  (metrics : list DailyMetrics.t) :
  GetDailyMetrics ms team days = Ok metrics ->
  SUM (map DailyMetrics.Deployments metrics)
  = COUNT (filter (fun r => (String.eqb team ""
                             || String.eqb (Deployment.Team r) team)
                            && (window_start (db ms) days
                                <=? Deployment.Timestamp r))
             (deployments (db ms))).
Proof.
  intros Hok. apply GetDailyMetrics_Ok in Hok.
  rewrite <- (Forall2_map_eq _ daily_deployments DailyMetrics.Deployments
                _ _ (fun r m H =>
                       eq_sym (proj1 (proj2 (proj2 (Scan_DailyMetrics_Ok r m H)))))
                Hok).
  unfold select_daily_metrics.
  rewrite (SUM_perm _ _ (Permutation_map daily_deployments
                           (ORDER_BY_perm _ _))).
  rewrite map_map. cbn [daily_metrics_row daily_deployments].
  rewrite GROUP_BY_count. f_equal. apply filter_ext. intros r.
  apply in_window_spec.
Qed.

(** X3: the deployment counts of a result of [GetDailyMetrics] add up to the
    number of deployments that are of the requested team (any team, without
    one) and dated at or after the start of the window; every element counts
    at least one deployment, and no more successful ones than deployments. *)
Theorem GetDailyMetrics_counts (ms : MetricsService) (team : string)
  (days : Z) (metrics : list DailyMetrics.t) :
  GetDailyMetrics ms team days = Ok metrics ->
  SUM (map DailyMetrics.Deployments metrics)
  = COUNT (filter (fun r => (String.eqb team ""
                             || String.eqb (Deployment.Team r) team)
                            && (window_start (db ms) days
                                <=? Deployment.Timestamp r))
             (deployments (db ms)))
  /\ forall m, In m metrics ->
       0 < DailyMetrics.Deployments m
       /\ 0 <= DailyMetrics.Successful m <= DailyMetrics.Deployments m.
Proof.
  intros Hok. split; [now apply GetDailyMetrics_sum|].
  apply GetDailyMetrics_Ok in Hok.
  - intros m Hm.
    destruct (Forall2_In_r _ _ _ _ Hok Hm) as (r & Hr & Hscan).
    apply Scan_DailyMetrics_Ok in Hscan as (_ & _ & -> & -> & _).
    apply select_daily_metrics_In in Hr as (g & Hg & ->).
    apply GROUP_BY_nonempty in Hg.
    cbn [daily_metrics_row daily_deployments daily_successful].
    rewrite SUM_success_flag. split; [now apply COUNT_pos|].
    split; [apply COUNT_nonneg | apply COUNT_filter_le].
Qed.

Lemma GetDailyMetrics_counts_witness :
  let metrics :=
    [ DailyMetrics.mk "2024-01-01" "alpha" 2 2 15;
      DailyMetrics.mk "2023-12-31" "alpha" 1 0 30 ] in
  SUM (map DailyMetrics.Deployments metrics)
  = COUNT (filter (fun r => (String.eqb "alpha" ""
                             || String.eqb (Deployment.Team r) "alpha")
                            && (window_start (db sample_service) 30
                                <=? Deployment.Timestamp r))
             (deployments (db sample_service)))
  /\ forall m, In m metrics ->
       0 < DailyMetrics.Deployments m
       /\ 0 <= DailyMetrics.Successful m <= DailyMetrics.Deployments m.
Proof.
  intros metrics.
  apply (GetDailyMetrics_counts sample_service "alpha" 30 metrics).
  vm_compute. reflexivity.
Defined.





(** ** The team leaderboard: teams, counts and failure *)

Lemma GROUP_BY_keys {R K : Type} (K_dec : forall x y : K, {x = y} + {x <> y})
  (key : R -> K) (rows : list R) :
  map fst (GROUP_BY K_dec key rows) = nodup K_dec (map key rows).
Proof. unfold GROUP_BY. rewrite map_map. apply map_id. Qed.

(** X5: a result of [GetTeamMetrics] has one element for every team of the
    deployments table; its total is the number of deployments of the team,
    its successful count the number of those with status success. *)
Theorem GetTeamMetrics_teams (ms : MetricsService)
  (metrics : list TeamMetrics.t) :
  GetTeamMetrics ms = Ok metrics ->
  let ds := deployments (db ms) in
  Permutation (map TeamMetrics.Team metrics) (teams ds)
  /\ NoDup (map TeamMetrics.Team metrics)
  /\ forall tm, In tm metrics ->
       TeamMetrics.TotalDeployments tm
       = COUNT (deployments_of (TeamMetrics.Team tm) ds)
       /\ TeamMetrics.SuccessfulDeployments tm
          = COUNT (filter is_success (deployments_of (TeamMetrics.Team tm) ds)).
Proof.
  intros Hok ds.
  assert (Hperm : Permutation (map TeamMetrics.Team metrics) (teams ds)).
  { pose proof (GetTeamMetrics_Ok _ _ Hok) as Hrows.
    rewrite <- (Forall2_map_eq _ team TeamMetrics.Team _ _
                  (fun r tm H => eq_sym (proj1 (Scan_TeamMetrics_Ok r tm H)))
                  Hrows).
    unfold select_team_metrics.
    rewrite (Permutation_map team (ORDER_BY_perm _ _)), map_map.
    unfold teams, ds.
    rewrite <- (GROUP_BY_keys string_dec Deployment.Team (deployments (db ms))).
    apply Permutation_refl. }
  split; [exact Hperm|]. split.
  - apply (Permutation_NoDup (l := teams ds));
      [now symmetry | apply NoDup_nodup].
  - intros tm Hin.
    destruct (GetTeamMetrics_In ms metrics tm Hok Hin) as (g & Hg & Hscan).
    apply Scan_TeamMetrics_Ok in Hscan as (-> & -> & -> & _).
    apply team_group in Hg as [Hrows _].
    cbn [team_metrics_row team total_deployments successful_deployments].
    fold ds in Hrows. now rewrite SUM_success_flag, Hrows.
Qed.

Lemma GetTeamMetrics_teams_witness :
  Permutation (map TeamMetrics.Team sample_team_metrics) ["alpha"; "beta"]
  /\ NoDup (map TeamMetrics.Team sample_team_metrics)
  /\ forall tm, In tm sample_team_metrics ->
       TeamMetrics.TotalDeployments tm
       = COUNT (deployments_of (TeamMetrics.Team tm) sample_deployments)
       /\ TeamMetrics.SuccessfulDeployments tm
          = COUNT (filter is_success
                     (deployments_of (TeamMetrics.Team tm) sample_deployments)).
Proof.
  apply (GetTeamMetrics_teams sample_service sample_team_metrics).
  vm_compute. reflexivity.
Defined.

(** [GetTeamMetrics] returns a result exactly when the engine runs the
    statement and every team of the table has a successful deployment. *)
Lemma GetTeamMetrics_Ok_iff (ms : MetricsService) :
  (exists metrics, GetTeamMetrics ms = Ok metrics) <->
  verdict (db ms) = None
  /\ forall d, In d (deployments (db ms)) ->
       filter is_success
         (deployments_of (Deployment.Team d) (deployments (db ms))) <> [].
Proof.
  split.
  - intros (metrics & Hok). assert (Hrun : verdict (db ms) = None).
    { unfold GetTeamMetrics, DB_Query in Hok.
      now destruct (verdict (db ms)). }
    split; [exact Hrun|]. intros d Hd Hnone.
    rewrite (GetTeamMetrics_null_average ms d Hrun Hd Hnone) in Hok.
    discriminate.
  - intros [Hrun Hall]. unfold GetTeamMetrics, DB_Query. rewrite Hrun.
    apply scan_rows_all_Ok. intros r Hr.
    apply select_team_metrics_In in Hr as (g & Hg & ->).
    pose proof (team_group _ _ Hg) as [Hrows _].
    apply GROUP_BY_In in Hg as [Hk _].
    apply in_map_iff in Hk as (d & Hkey & Hd).
    specialize (Hall d Hd). rewrite Hkey, <- Hrows in Hall.
    unfold Scan_TeamMetrics. rewrite team_metrics_row_avg.
    destruct (filter is_success (snd g)) as [|x l]; [congruence|].
    cbn [map Scan_float64]. now eexists.
Qed.

(** X6: when the engine runs the statement, [GetTeamMetrics] returns a result
    exactly when every team of the deployments table has a successful
    deployment; one team without success makes the whole call fail. *)
Theorem GetTeamMetrics_succeeds_iff (ms : MetricsService) :
  verdict (db ms) = None ->
  (exists metrics, GetTeamMetrics ms = Ok metrics) <->
  forall d, In d (deployments (db ms)) ->
    exists s, In s (deployments (db ms))
              /\ Deployment.Team s = Deployment.Team d
              /\ Deployment.Status s = "success".
Proof.
  intros Hrun. rewrite GetTeamMetrics_Ok_iff.
  assert (Hne : forall d,
             filter is_success
               (deployments_of (Deployment.Team d) (deployments (db ms))) <> []
             <-> exists s, In s (deployments (db ms))
                           /\ Deployment.Team s = Deployment.Team d
                           /\ Deployment.Status s = "success").
  { intros d. split.
    - destruct (filter is_success _) as [|s l] eqn:E; [congruence|]. intros _.
      assert (Hs : In s (filter is_success
                           (deployments_of (Deployment.Team d) (deployments (db ms)))))
        by (rewrite E; now left).
      apply filter_In in Hs as [Hs Hsucc]. apply filter_In in Hs as [Hs Hteam].
      exists s. split; [exact Hs|]. split; now apply String.eqb_eq.
    - intros (s & Hs & Hteam & Hsucc) Hnil.
      assert (Hin : In s (filter is_success
                            (deployments_of (Deployment.Team d) (deployments (db ms))))).
      { apply filter_In. split; [apply filter_In; split|].
        - exact Hs.
        - now apply String.eqb_eq.
        - now apply String.eqb_eq. }
      rewrite Hnil in Hin. destruct Hin. }
  split.
  - intros [_ H] d Hd. apply Hne. now apply H.
  - intros H. split; [exact Hrun|]. intros d Hd. apply Hne. now apply H.
Qed.

Lemma GetTeamMetrics_succeeds_iff_witness :
  exists metrics, GetTeamMetrics sample_service = Ok metrics.
Proof.
  apply (GetTeamMetrics_succeeds_iff sample_service); [reflexivity|].
  intros d [<-|[<-|[<-|[<-|[]]]]].
  - exists (deployment "d1" "alpha" (midnight new_year + 5) 10 "success").
    split; [now left | split; reflexivity].
  - exists (deployment "d1" "alpha" (midnight new_year + 5) 10 "success").
    split; [now left | split; reflexivity].
  - exists (deployment "d1" "alpha" (midnight new_year + 5) 10 "success").
    split; [now left | split; reflexivity].
  - exists (deployment "d4" "beta" (midnight (new_year - 3)) 5 "success").
    split; [do 3 right; now left | split; reflexivity].
Defined.

(** ** The HTTP handlers *)


(** X8: for every request the daily handler answers 200 with the metrics
    when the engine runs the statement it is sent, and 500 with the error
    of the engine behind the prefix of the method when the engine refuses
    it (as it does for a [days] beyond the range of its intervals).  The
    handler has no failure of its own: no parameter is rejected at the
    boundary and no row fails to scan. *)
Theorem getDailyMetrics_status (h : Handler) (c : Context) :
  match verdict (db (service h)) with
  | None => exists metrics,
      getDailyMetrics h c = JSON StatusOK (DailyMetricsBody metrics)
  | Some e =>
      getDailyMetrics h c
      = JSON StatusInternalServerError (ErrorBody ("query failed: " ++ e))
  end.
Proof.
  unfold getDailyMetrics. destruct (daily_arguments c) as [team days].
  pose proof (Scan_DailyMetrics_total) as Htotal.
  unfold GetDailyMetrics, DB_Query.
  destruct (verdict (db (service h))) as [e|]; [reflexivity|].
  destruct (scan_rows_all_Ok Scan_DailyMetrics
              (select_daily_metrics (if String.eqb team "" then None else Some team)
                 days (db (service h))) [])
    as (metrics & ->).
  - intros r Hr. now apply Htotal in Hr.
  - now exists metrics.
Qed.

(** ** The aggregation engine: the job, the rollup and the ranks *)

Lemma scheduled_job_step (ms : MetricsService) :
  let d := db ms in
  let d' := db (scheduled_job ms) in
  deployments d' = deployments d
  /\ (daily_team_summary d' = daily_team_summary d
      \/ daily_team_summary d' = Some (select_daily_team_summary (deployments d)))
  /\ (team_rankings d' = team_rankings d
      \/ team_rankings d' = Some (select_team_rankings (deployments d))).
Proof.
  unfold scheduled_job. pose proof (aggregateMetrics_cases ms) as H.
  cbv zeta in *.
  destruct (verdict (db ms)); [|destruct (verdict (answered (db ms)))];
    rewrite H; cbn; auto.
Qed.

(** X9: the scheduled job keeps the store consistent.  When every derived
    table that exists is the rollup of the raw table, this is still so after
    any number of runs of the job, whichever of them fail; the job never
    changes the raw table and never removes a derived table. *)
Theorem run_jobs_consistent (n : nat) (ms : MetricsService) :
  derived_consistent (db ms) ->
  let d := db ms in
  let d' := db (run_jobs n ms) in
  deployments d' = deployments d
  /\ derived_consistent d'
  /\ (daily_team_summary d <> None -> daily_team_summary d' <> None)
  /\ (team_rankings d <> None -> team_rankings d' <> None).
Proof.
  revert ms. induction n as [|n IH]; intros ms Hc; cbn [run_jobs].
  - repeat split; auto; apply Hc.
  - destruct (scheduled_job_step ms) as (Hd & Hs & Hr). cbv zeta in *.
    assert (Hc' : derived_consistent (db (scheduled_job ms))).
    { destruct Hc as [Hc1 Hc2]. unfold derived_consistent. rewrite Hd. split.
      - destruct Hs as [-> | ->]; auto.
      - destruct Hr as [-> | ->]; auto. }
    destruct (IH (scheduled_job ms) Hc') as (Hd' & Hc'' & Hs' & Hr').
    split; [congruence|]. split; [exact Hc''|]. split.
    + intros H. apply Hs'. destruct Hs as [-> | ->]; [exact H | discriminate].
    + intros H. apply Hr'. destruct Hr as [-> | ->]; [exact H | discriminate].
Qed.

Lemma run_jobs_consistent_witness :
  let d' := db (run_jobs 3 interrupted_service) in
  deployments d' = sample_deployments
  /\ derived_consistent d'
  /\ (daily_team_summary (db interrupted_service) <> None ->
      daily_team_summary d' <> None)
  /\ (team_rankings (db interrupted_service) <> None ->
      team_rankings d' <> None).
Proof.
  apply (run_jobs_consistent 3 interrupted_service).
  split; left; reflexivity.
Defined.

(** X10: after a cycle without error [daily_team_summary] has one row for
    every day and team with a deployment; the row counts the deployments of
    that team on that day and the successful ones among them, its average is
    not NULL, and the totals of all rows add up to the number of
    deployments. *)
Theorem daily_team_summary_rollup (ms ms' : MetricsService) :
  aggregateMetrics ms = (ms', None) ->
  let ds := deployments (db ms) in
  exists table,
    daily_team_summary (db ms') = Some table
    /\ map (fun row => (dts_date row, dts_team row)) table
       = nodup key_dec (map day_team ds)
    /\ SUM (map dts_total_deployments table) = COUNT ds
    /\ forall row, In row table ->
         let on_day :=
           filter (has_key key_dec day_team (dts_date row, dts_team row)) ds in
         dts_total_deployments row = COUNT on_day
         /\ dts_successful_deployments row = COUNT (filter is_success on_day)
         /\ 0 < dts_total_deployments row
         /\ dts_avg_duration_minutes row <> None.
Proof.
  intros Hok ds. apply aggregateMetrics_done in Hok as (_ & Hs & _).
  exists (select_daily_team_summary ds). split; [exact Hs|].
  unfold select_daily_team_summary. split; [|split].
  - rewrite map_map. cbn [daily_team_summary_row dts_date dts_team].
    rewrite <- (GROUP_BY_keys key_dec day_team ds). apply map_ext.
    now intros [[day t] rows].
  - rewrite map_map. cbn [daily_team_summary_row dts_total_deployments].
    apply GROUP_BY_count.
  - intros row Hrow. apply in_map_iff in Hrow as (g & <- & Hg).
    pose proof (GROUP_BY_nonempty _ _ _ _ Hg) as Hne.
    apply GROUP_BY_In in Hg as [_ Hrows].
    cbn [daily_team_summary_row dts_date dts_team dts_total_deployments
           dts_successful_deployments dts_avg_duration_minutes].
    rewrite <- surjective_pairing, <- Hrows.
    repeat split; [now apply COUNT_pos|].
    now rewrite (AVG_not_null _ _ Hne).
Qed.

Lemma daily_team_summary_rollup_witness :
  exists table,
    daily_team_summary (db (fst (aggregateMetrics sample_service))) = Some table
    /\ SUM (map dts_total_deployments table) = 4.
Proof.
  destruct (daily_team_summary_rollup sample_service
              (fst (aggregateMetrics sample_service)))
    as (table & Ht & _ & Hsum & _); [vm_compute; reflexivity|].
  exists table. split; [exact Ht | exact Hsum].
Defined.

Lemma COUNT_filter_mono {A : Type} (f g : A -> bool) (l : list A) :
  (forall x, In x l -> f x = true -> g x = true) ->
  COUNT (filter f l) <= COUNT (filter g l).
Proof.
  induction l as [|x l IH]; intros H; simpl; [lia|].
  assert (IH' : COUNT (filter f l) <= COUNT (filter g l))
    by (apply IH; intros y Hy; apply H; now right).
  pose proof (H x (or_introl eq_refl)) as Hx.
  destruct (f x), (g x); rewrite ?COUNT_cons;
    first [lia | specialize (Hx eq_refl); discriminate].
Qed.

Lemma COUNT_filter_strict {A : Type} (f g : A -> bool) (l : list A) (y : A) :
  (forall x, In x l -> f x = true -> g x = true) ->
  In y l -> f y = false -> g y = true ->
  COUNT (filter f l) < COUNT (filter g l).
Proof.
  induction l as [|x l IH]; intros H Hy Hf Hg; [destruct Hy|]. simpl.
  assert (Hl : forall z, In z l -> f z = true -> g z = true)
    by (intros z Hz; apply H; now right).
  pose proof (COUNT_filter_mono f g l Hl) as Hle.
  destruct Hy as [->|Hy].
  - rewrite Hf, Hg, COUNT_cons. lia.
  - specialize (IH Hl Hy Hf Hg).
    pose proof (H x (or_introl eq_refl)) as Hx.
    destruct (f x), (g x); rewrite ?COUNT_cons;
      first [lia | specialize (Hx eq_refl); discriminate].
Qed.

Section RankOrder.
Context {T V : Type}.
Variable leb : V -> V -> bool.
Variable val : T -> V.
Hypothesis leb_total : forall a b, leb a b = false -> leb b a = true.
Hypothesis leb_trans :
  forall a b c, leb a b = true -> leb b c = true -> leb a c = true.

(** A rank is at least one and at most the number of rows. *)
Lemma ahead_bounds (l : list T) (x : T) :
  In x l -> 0 <= ahead leb val (val x) l < COUNT l.
Proof.
  intros Hx. unfold ahead. split; [apply COUNT_nonneg|].
  rewrite <- (COUNT_filter_all (fun _ => true) l) by reflexivity.
  apply (COUNT_filter_strict _ _ l x); auto.
  now rewrite (leb_refl leb leb_total).
Qed.

(** A row with a value that is not smaller has a rank that is not greater. *)
Lemma ahead_mono (l : list T) (x y : T) :
  leb (val x) (val y) = true ->
  ahead leb val (val y) l <= ahead leb val (val x) l.
Proof.
  intros Hxy. apply COUNT_filter_mono. intros z _ Hz.
  destruct (leb (val z) (val x)) eqn:E; [|reflexivity].
  rewrite (leb_trans _ _ _ E Hxy) in Hz. discriminate.
Qed.

(** A row with a greater value has a smaller rank. *)
Lemma ahead_strict (l : list T) (x y : T) :
  In y l -> leb (val y) (val x) = false ->
  ahead leb val (val y) l < ahead leb val (val x) l.
Proof.
  intros Hy Hyx. apply (COUNT_filter_strict _ _ l y).
  - intros z _ Hz. destruct (leb (val z) (val x)) eqn:E; [|reflexivity].
    assert (Hxy : leb (val x) (val y) = true) by now apply leb_total.
    rewrite (leb_trans _ _ _ E Hxy) in Hz. discriminate.
  - exact Hy.
  - now rewrite (leb_refl leb leb_total).
  - now rewrite Hyx.
Qed.
End RankOrder.

(** X11: in [team_rankings] after a cycle without error, every rank lies
    between 1 and the number of teams; a team with more deployments has a
    smaller velocity rank and teams with as many deployments share it; a
    team with a greater success percentage has a smaller success rank and
    teams with the same percentage share it. *)
Theorem team_rankings_order (ms ms' : MetricsService)
  (table : list TeamRanking) (a b : TeamRanking) :
  aggregateMetrics ms = (ms', None) ->
  team_rankings (db ms') = Some table -> In a table -> In b table ->
  let ds := deployments (db ms) in
  let total row := COUNT (deployments_of (tr_team row) ds) in
  let pct row := team_pct ds (tr_team row) in
  1 <= tr_success_rank a <= COUNT (teams ds)
  /\ 1 <= tr_velocity_rank a <= COUNT (teams ds)
  /\ (total a < total b -> tr_velocity_rank b < tr_velocity_rank a)
  /\ (total a = total b -> tr_velocity_rank a = tr_velocity_rank b)
  /\ ((pct a < pct b)%Q -> tr_success_rank b < tr_success_rank a)
  /\ ((pct a == pct b)%Q -> tr_success_rank a = tr_success_rank b).
Proof.
  intros Hok Ht Ha Hb ds total pct.
  apply aggregateMetrics_done in Hok as (_ & _ & Hr).
  rewrite Hr in Ht. injection Ht as <-. fold ds in Ha, Hb.
  destruct (select_team_rankings_ranks ds) as [Hperm Hranks].
  destruct (Hranks a Ha) as [Hsa Hva]. destruct (Hranks b Hb) as [Hsb Hvb].
  assert (Hta : In (tr_team a) (teams ds))
    by (apply (Permutation_in _ Hperm); now apply in_map).
  assert (Htb : In (tr_team b) (teams ds))
    by (apply (Permutation_in _ Hperm); now apply in_map).
  fold (ahead Qle_bool (team_pct ds) (team_pct ds (tr_team a)) (teams ds)) in Hsa.
  fold (ahead Qle_bool (team_pct ds) (team_pct ds (tr_team b)) (teams ds)) in Hsb.
  fold (ahead Z.leb (fun t => COUNT (deployments_of t ds))
          (COUNT (deployments_of (tr_team a) ds)) (teams ds)) in Hva.
  fold (ahead Z.leb (fun t => COUNT (deployments_of t ds))
          (COUNT (deployments_of (tr_team b) ds)) (teams ds)) in Hvb.
  pose proof (ahead_bounds Qle_bool (team_pct ds) Qle_bool_total
                (teams ds) (tr_team a) Hta) as Bs.
  pose proof (ahead_bounds Z.leb (fun t => COUNT (deployments_of t ds))
                Zleb_total (teams ds) (tr_team a) Hta) as Bv.
  cbv beta in Bv.
  split; [lia|]. split; [lia|]. unfold total, pct. split; [|split; [|split]].
  - intros Hlt. rewrite Hva, Hvb.
    pose proof (ahead_strict Z.leb (fun t => COUNT (deployments_of t ds))
                  Zleb_total Zleb_trans (teams ds) (tr_team a) (tr_team b) Htb)
      as H. cbv beta in H. apply Z.leb_gt in Hlt. specialize (H Hlt). lia.
  - intros Heq. rewrite Hva, Hvb, Heq. reflexivity.
  - intros Hlt. rewrite Hsa, Hsb.
    pose proof (ahead_strict Qle_bool (team_pct ds) Qle_bool_total
                  Qle_bool_trans (teams ds) (tr_team a) (tr_team b) Htb) as H.
    assert (Hb' : Qle_bool (team_pct ds (tr_team b)) (team_pct ds (tr_team a)) = false).
    { destruct (Qle_bool _ _) eqn:E; [|reflexivity].
      apply Qle_bool_iff in E. apply Qlt_not_le in Hlt. contradiction. }
    specialize (H Hb'). lia.
  - intros Heq. rewrite Hsa, Hsb. f_equal.
    assert (Hab : Qle_bool (team_pct ds (tr_team a)) (team_pct ds (tr_team b)) = true)
      by (apply Qle_bool_iff; rewrite Heq; apply Qle_refl).
    assert (Hba : Qle_bool (team_pct ds (tr_team b)) (team_pct ds (tr_team a)) = true)
      by (apply Qle_bool_iff; rewrite Heq; apply Qle_refl).
    pose proof (ahead_mono Qle_bool (team_pct ds) Qle_bool_trans
                  (teams ds) _ _ Hab).
    pose proof (ahead_mono Qle_bool (team_pct ds) Qle_bool_trans
                  (teams ds) _ _ Hba).
    lia.
Qed.

Lemma team_rankings_order_witness :
  let a := {| tr_team := "c"; tr_success_rank := 3; tr_velocity_rank := 1 |} in
  let b := {| tr_team := "a"; tr_success_rank := 1; tr_velocity_rank := 2 |} in
  let ds := deployments (db tie_service) in
  let total row := COUNT (deployments_of (tr_team row) ds) in
  let pct row := team_pct ds (tr_team row) in
  1 <= tr_success_rank a <= COUNT (teams ds)
  /\ 1 <= tr_velocity_rank a <= COUNT (teams ds)
  /\ (total a < total b -> tr_velocity_rank b < tr_velocity_rank a)
  /\ (total a = total b -> tr_velocity_rank a = tr_velocity_rank b)
  /\ ((pct a < pct b)%Q -> tr_success_rank b < tr_success_rank a)
  /\ ((pct a == pct b)%Q -> tr_success_rank a = tr_success_rank b).
Proof.
  intros a b.
  apply (team_rankings_order tie_service (fst (aggregateMetrics tie_service))
           [a; b; {| tr_team := "b"; tr_success_rank := 1; tr_velocity_rank := 2 |}]).
  - vm_compute. reflexivity.
  - vm_compute. reflexivity.
  - now left.
  - right. now left.
Defined.

(** ** Startup: schema and sample data *)

Lemma exec_until_cons (files : SampleFiles) (s s' : RawStore)
  (q : RawStatement) (rest : list RawStatement) :
  exec_until files s (q :: rest) = (s', None) ->
  exists s1, run_raw files q (heard s) = Ok s1
             /\ hd None (answers s) = None
             /\ exec_until files s1 rest = (s', None).
Proof.
  cbn [exec_until]. unfold Raw_Exec.
  destruct (hd None (answers s)); [discriminate|].
  destruct (run_raw files q (heard s)) as [s1|e]; [|discriminate].
  intros H. now exists s1.
Qed.

(** A property of the raw store that every statement of a list keeps is kept
    by the loop over the list, whether it ends with an error or not. *)
Lemma exec_until_invariant (P : RawStore -> Prop) (files : SampleFiles)
  (statements : list RawStatement) :
  (forall s, P s -> P (heard s)) ->
  (forall q s s', In q statements -> P s -> run_raw files q s = Ok s' -> P s') ->
  forall s, P s -> P (fst (exec_until files s statements)).
Proof.
  intros Hheard. induction statements as [|q rest IH]; intros Hrun s Hs;
    [exact Hs|].
  cbn [exec_until]. unfold Raw_Exec.
  destruct (hd None (answers s)); [now apply Hheard|].
  destruct (run_raw files q (heard s)) as [s1|e] eqn:E; [|now apply Hheard].
  apply IH.
  - intros q' a b Hq'. apply Hrun. now right.
  - apply (Hrun q (heard s) s1); [now left | now apply Hheard | exact E].
Qed.

Lemma initializeSchema_fst (s : RawStore) :
  fst (initializeSchema s) = fst (exec_until no_files s schemas).
Proof.
  unfold initializeSchema. now destruct (exec_until no_files s schemas) as [s' [e|]].
Qed.

Lemma LoadSampleData_fst (files : SampleFiles) (s : RawStore) :
  fst (LoadSampleData files s)
  = fst (exec_until files s
           [ DeleteFrom T_deployments; DeleteFrom T_incidents;
             DeleteFrom T_pull_requests; InsertFromCSV T_deployments;
             InsertFromCSV T_incidents; InsertFromCSV T_pull_requests ]).
Proof.
  unfold LoadSampleData. now destruct (exec_until files s _) as [s' [e|]].
Qed.

(** The schema statements keep the rows of the tables that exist. *)
Lemma initializeSchema_rows (s : RawStore) :
  let s' := fst (initializeSchema s) in
  (forall rows, raw_deployments s = Some rows -> raw_deployments s' = Some rows)
  /\ (forall rows, raw_incidents s = Some rows -> raw_incidents s' = Some rows)
  /\ (forall rows, raw_pull_requests s = Some rows ->
                   raw_pull_requests s' = Some rows).
Proof.
  cbv zeta. rewrite initializeSchema_fst.
  apply (exec_until_invariant
           (fun s' =>
              (forall rows, raw_deployments s = Some rows ->
                            raw_deployments s' = Some rows)
              /\ (forall rows, raw_incidents s = Some rows ->
                               raw_incidents s' = Some rows)
              /\ (forall rows, raw_pull_requests s = Some rows ->
                               raw_pull_requests s' = Some rows))).
  - intros a H. exact H.
  - intros q a b Hq (Hd & Hi & Hp) Hrun.
    destruct Hq as [<-|[<-|[<-|[]]]]; cbn in Hrun; injection Hrun as <-;
      cbn; repeat split; auto; intros rows Hrows.
    + now rewrite (Hd rows Hrows).
    + now rewrite (Hi rows Hrows).
    + now rewrite (Hp rows Hrows).
  - now repeat split.
Qed.

Lemma initializeSchema_done (s s' : RawStore) :
  initializeSchema s = (s', None) ->
  raw_deployments s' <> None /\ raw_incidents s' <> None
  /\ raw_pull_requests s' <> None.
Proof.
  unfold initializeSchema.
  destruct (exec_until no_files s schemas) as [s1 [e|]] eqn:E; [discriminate|].
  intros H. injection H as <-. unfold schemas in E.
  apply exec_until_cons in E as (a & Ha & _ & E).
  apply exec_until_cons in E as (b & Hb & _ & E).
  apply exec_until_cons in E as (c & Hc & _ & E).
  cbn in E. injection E as <-.
  cbn in Ha, Hb, Hc. injection Ha as <-. injection Hb as <-. injection Hc as <-.
  cbn. unfold create_table.
  destruct (raw_deployments s), (raw_incidents s), (raw_pull_requests s);
    repeat split; discriminate.
Qed.

(** X12: [initializeSchema] touches no data: whether it fails or not, every
    raw table that exists keeps its rows; and when it returns no error, the
    three raw tables exist. *)
Theorem initializeSchema_keeps_data (s : RawStore) :
  let s' := fst (initializeSchema s) in
  (forall rows, raw_deployments s = Some rows -> raw_deployments s' = Some rows)
  /\ (forall rows, raw_incidents s = Some rows -> raw_incidents s' = Some rows)
  /\ (forall rows, raw_pull_requests s = Some rows ->
                   raw_pull_requests s' = Some rows)
  /\ (snd (initializeSchema s) = None ->
      raw_deployments s' <> None /\ raw_incidents s' <> None
      /\ raw_pull_requests s' <> None).
Proof.
  cbv zeta. destruct (initializeSchema_rows s) as (Hd & Hi & Hp).
  repeat split; auto; destruct (initializeSchema s) as [s' err] eqn:E;
    cbn [fst snd] in *; subst err;
    now destruct (initializeSchema_done s s' E) as (H1 & H2 & H3).
Qed.

Lemma initializeSchema_keeps_data_witness :
  raw_deployments (fst (initializeSchema loaded_store)) = Some sample_deployments
  /\ raw_incidents (fst (initializeSchema new_store)) <> None.
Proof.
  split.
  - apply (initializeSchema_keeps_data loaded_store). reflexivity.
  - apply (initializeSchema_keeps_data new_store). reflexivity.
Defined.

(** X13: [initializeSchema] can run at every start: a second run without
    error leaves the three raw tables as the first run left them. *)
Theorem initializeSchema_idempotent (s s1 s2 : RawStore) :
  initializeSchema s = (s1, None) -> initializeSchema s1 = (s2, None) ->
  raw_deployments s2 = raw_deployments s1
  /\ raw_incidents s2 = raw_incidents s1
  /\ raw_pull_requests s2 = raw_pull_requests s1.
Proof.
  intros H1 H2. apply initializeSchema_done in H1 as (Hd & Hi & Hp).
  destruct (initializeSchema_rows s1) as (Kd & Ki & Kp).
  rewrite H2 in Kd, Ki, Kp. cbn [fst] in *.
  destruct (raw_deployments s1) as [d|]; [|congruence].
  destruct (raw_incidents s1) as [i|]; [|congruence].
  destruct (raw_pull_requests s1) as [p|]; [|congruence].
  now rewrite (Kd d), (Ki i), (Kp p).
Qed.

Lemma initializeSchema_idempotent_witness :
  let s1 := fst (initializeSchema new_store) in
  let s2 := fst (initializeSchema s1) in
  raw_deployments s2 = raw_deployments s1
  /\ raw_incidents s2 = raw_incidents s1
  /\ raw_pull_requests s2 = raw_pull_requests s1.
Proof.
  intros s1 s2.
  apply (initializeSchema_idempotent new_store s1 s2); reflexivity.
Defined.

(** X14: a load without error replaces the contents of the three raw tables:
    each file could be read, each table holds the rows of its file and
    nothing of what it held before, and no identifier occurs twice in a
    table. *)
Theorem LoadSampleData_replaces (files : SampleFiles) (s s' : RawStore) :
  LoadSampleData files s = (s', None) ->
  exists d i p,
    deployments_csv files = Ok d /\ incidents_csv files = Ok i
    /\ pull_requests_csv files = Ok p
    /\ raw_deployments s' = Some d /\ raw_incidents s' = Some i
    /\ raw_pull_requests s' = Some p
    /\ unique (map Deployment.ID d) = true
    /\ unique (map Incident.ID i) = true
    /\ unique (map PullRequest.ID p) = true.
Proof.
  unfold LoadSampleData.
  destruct (exec_until files s _) as [s1 [e|]] eqn:E; [discriminate|].
  intros H. injection H as <-.
  apply exec_until_cons in E as (a1 & H1 & _ & E).
  apply exec_until_cons in E as (a2 & H2 & _ & E).
  apply exec_until_cons in E as (a3 & H3 & _ & E).
  apply exec_until_cons in E as (a4 & H4 & _ & E).
  apply exec_until_cons in E as (a5 & H5 & _ & E).
  apply exec_until_cons in E as (a6 & H6 & _ & E).
  cbn in E. injection E as <-.
  cbn in H1. destruct (raw_deployments s); [|discriminate].
  cbn in H1. injection H1 as <-.
  cbn in H2. destruct (raw_incidents s); [|discriminate].
  cbn in H2. injection H2 as <-.
  cbn in H3. destruct (raw_pull_requests s); [|discriminate].
  cbn in H3. injection H3 as <-.
  cbn in H4. destruct (deployments_csv files) as [d|]; [|discriminate].
  cbn in H4. destruct (unique (map Deployment.ID d)) eqn:Ud; [|discriminate].
  cbn in H4. injection H4 as <-.
  cbn in H5. destruct (incidents_csv files) as [i|]; [|discriminate].
  cbn in H5. destruct (unique (map Incident.ID i)) eqn:Ui; [|discriminate].
  cbn in H5. injection H5 as <-.
  cbn in H6. destruct (pull_requests_csv files) as [p|]; [|discriminate].
  cbn in H6. destruct (unique (map PullRequest.ID p)) eqn:Up; [|discriminate].
  cbn in H6. injection H6 as <-.
  exists d, i, p. cbn. now repeat split.
Qed.

Lemma LoadSampleData_replaces_witness :
  exists d i p,
    deployments_csv sample_files = Ok d /\ incidents_csv sample_files = Ok i
    /\ pull_requests_csv sample_files = Ok p
    /\ raw_deployments (fst (LoadSampleData sample_files loaded_store)) = Some d
    /\ raw_incidents (fst (LoadSampleData sample_files loaded_store)) = Some i
    /\ raw_pull_requests (fst (LoadSampleData sample_files loaded_store)) = Some p
    /\ unique (map Deployment.ID d) = true
    /\ unique (map Incident.ID i) = true
    /\ unique (map PullRequest.ID p) = true.
Proof.
  apply (LoadSampleData_replaces sample_files loaded_store
           (fst (LoadSampleData sample_files loaded_store))).
  vm_compute. reflexivity.
Defined.

(** X15: a load is not all or nothing.  When the raw tables exist, the engine
    runs every statement and the deployments file cannot be read or repeats
    an identifier, [LoadSampleData] returns the error of the INSERT and
    leaves the three raw tables empty: the rows they held are gone. *)
Theorem LoadSampleData_failure_empties (files : SampleFiles) (s : RawStore) :
  raw_deployments s <> None -> raw_incidents s <> None ->
  raw_pull_requests s <> None -> answers s = [] ->
  (forall rows, deployments_csv files = Ok rows ->
                unique (map Deployment.ID rows) = false) ->
  let s' := fst (LoadSampleData files s) in
  (exists e, snd (LoadSampleData files s) = Some (EngineErr e)
             /\ (e = DuplicateKey "deployments"
                 \/ exists msg, e = BadSource "deployments" msg))
  /\ raw_deployments s' = Some []
  /\ raw_incidents s' = Some []
  /\ raw_pull_requests s' = Some [].
Proof.
  destruct s as [d i p ans]. cbn. intros Hd Hi Hp -> Hbad.
  destruct d as [d|]; [|congruence]. destruct i as [i|]; [|congruence].
  destruct p as [p|]; [|congruence].
  unfold LoadSampleData. cbn.
  destruct (deployments_csv files) as [rows|msg] eqn:E; cbn.
  - rewrite (Hbad rows eq_refl). cbn. repeat split. eexists. split; eauto.
  - repeat split. eexists. split; eauto.
Qed.

Lemma LoadSampleData_failure_empties_witness :
  let s' := fst (LoadSampleData duplicate_files loaded_store) in
  (exists e, snd (LoadSampleData duplicate_files loaded_store)
             = Some (EngineErr e)
             /\ (e = DuplicateKey "deployments"
                 \/ exists msg, e = BadSource "deployments" msg))
  /\ raw_deployments s' = Some []
  /\ raw_incidents s' = Some []
  /\ raw_pull_requests s' = Some [].
Proof.
  apply (LoadSampleData_failure_empties duplicate_files loaded_store);
    try discriminate; try reflexivity.
  intros rows E. injection E as <-. reflexivity.
Defined.

Lemma run_raw_keys_unique (files : SampleFiles) (q : RawStatement)
  (s s' : RawStore) :
  keys_unique s -> run_raw files q s = Ok s' -> keys_unique s'.
Proof.
  intros (Hd & Hi & Hp) Hrun. destruct s as [d i p ans]. cbn in *.
  destruct q as [[]|[]|[]]; cbn in Hrun.
  - injection Hrun as <-. repeat split; cbn; auto.
    intros rows E. destruct d; cbn in E; injection E as <-; auto.
  - injection Hrun as <-. repeat split; cbn; auto.
    intros rows E. destruct i; cbn in E; injection E as <-; auto.
  - injection Hrun as <-. repeat split; cbn; auto.
    intros rows E. destruct p; cbn in E; injection E as <-; auto.
  - destruct d; cbn in Hrun; [|discriminate]. injection Hrun as <-.
    repeat split; cbn; auto. intros rows E. now injection E as <-.
  - destruct i; cbn in Hrun; [|discriminate]. injection Hrun as <-.
    repeat split; cbn; auto. intros rows E. now injection E as <-.
  - destruct p; cbn in Hrun; [|discriminate]. injection Hrun as <-.
    repeat split; cbn; auto. intros rows E. now injection E as <-.
  - destruct d as [d|]; cbn in Hrun; [|discriminate].
    destruct (deployments_csv files) as [new|]; cbn in Hrun; [|discriminate].
    destruct (unique _) eqn:U; cbn in Hrun; [|discriminate].
    injection Hrun as <-. repeat split; cbn; auto.
    intros rows E. now injection E as <-.
  - destruct i as [i|]; cbn in Hrun; [|discriminate].
    destruct (incidents_csv files) as [new|]; cbn in Hrun; [|discriminate].
    destruct (unique _) eqn:U; cbn in Hrun; [|discriminate].
    injection Hrun as <-. repeat split; cbn; auto.
    intros rows E. now injection E as <-.
  - destruct p as [p|]; cbn in Hrun; [|discriminate].
    destruct (pull_requests_csv files) as [new|]; cbn in Hrun; [|discriminate].
    destruct (unique _) eqn:U; cbn in Hrun; [|discriminate].
    injection Hrun as <-. repeat split; cbn; auto.
    intros rows E. now injection E as <-.
Qed.

(** X16: the startup code keeps the primary keys unique.  When no
    identifier occurs twice in a raw table, this is still so after
    [initializeSchema] and after [LoadSampleData], whatever the files hold
    and wherever the engine makes them stop. *)
Theorem startup_keeps_keys_unique (files : SampleFiles) (s : RawStore) :
  keys_unique s ->
  keys_unique (fst (initializeSchema s))
  /\ keys_unique (fst (LoadSampleData files s)).
Proof.
  intros Hs. rewrite initializeSchema_fst, LoadSampleData_fst.
  split; apply exec_until_invariant; auto;
    intros q a b _; apply run_raw_keys_unique.
Qed.

Lemma startup_keeps_keys_unique_witness :
  keys_unique (fst (initializeSchema loaded_store))
  /\ keys_unique (fst (LoadSampleData duplicate_files loaded_store)).
Proof.
  apply (startup_keeps_keys_unique duplicate_files loaded_store).
  repeat split; intros rows E; injection E as <-; reflexivity.
Defined.

Lemma schemas_fail_by_refusal (s s' : RawStore) (e : EngineError) :
  exec_until no_files s schemas = (s', Some e) ->
  exists msg, e = Refused msg /\ In (Some msg) (firstn 3 (answers s)).
Proof.
  destruct s as [d i p ans]. unfold schemas, exec_until, Raw_Exec. cbn.
  destruct ans as [|[m1|] ans]; cbn; [discriminate| |].
  - intros H. injection H as _ <-. exists m1. split; [reflexivity | now left].
  - destruct ans as [|[m2|] ans]; cbn; [discriminate| |].
    + intros H. injection H as _ <-. exists m2.
      split; [reflexivity | right; now left].
    + destruct ans as [|[m3|] ans]; cbn; [discriminate| |discriminate].
      intros H. injection H as _ <-. exists m3.
      split; [reflexivity | right; right; now left].
Qed.

(** X17: [NewMetricsService] returns a service whose three raw tables exist
    and hold the rows that the opened store held; it fails only when the
    store cannot be opened or the engine refuses one of the three schema
    statements, and wraps the error accordingly. *)
Theorem NewMetricsService_result (opened : result EngineError RawStore) :
  match NewMetricsService opened with
  | Ok s' =>
      exists s, opened = Ok s
        /\ raw_deployments s' <> None /\ raw_incidents s' <> None
        /\ raw_pull_requests s' <> None
        /\ (forall rows, raw_deployments s = Some rows ->
                         raw_deployments s' = Some rows)
        /\ (forall rows, raw_incidents s = Some rows ->
                         raw_incidents s' = Some rows)
        /\ (forall rows, raw_pull_requests s = Some rows ->
                         raw_pull_requests s' = Some rows)
  | Err err =>
      (exists e, opened = Err e
                 /\ err = Errorf "Failed to open DuckDB: " (EngineErr e))
      \/ (exists s msg,
            opened = Ok s /\ In (Some msg) (firstn 3 (answers s))
            /\ err = Errorf "Failed to initialize schema: "
                       (Errorf "Failed to create schema: "
                          (EngineErr (Refused msg))))
  end.
Proof.
  unfold NewMetricsService. destruct opened as [s|e].
  - destruct (initializeSchema s) as [s' [err|]] eqn:E.
    + right. unfold initializeSchema in E.
      destruct (exec_until no_files s schemas) as [s1 [e|]] eqn:E1;
        [|discriminate].
      injection E as _ <-.
      apply schemas_fail_by_refusal in E1 as (msg & -> & Hin).
      exists s, msg. now repeat split.
    + exists s. split; [reflexivity|].
      destruct (initializeSchema_done s s' E) as (H1 & H2 & H3).
      destruct (initializeSchema_rows s) as (K1 & K2 & K3).
      rewrite E in K1, K2, K3. cbn [fst] in *. now repeat split.
  - left. now exists e.
Qed.

(** ** The window of the daily series *)

(** X18: a longer window holds what a shorter one holds: for the same team
    and store, the result for more days counts at least as many deployments
    as the result for fewer days. *)
Theorem GetDailyMetrics_window_grows (ms : MetricsService) (team : string)
  (days1 days2 : Z) (metrics1 metrics2 : list DailyMetrics.t) :
  days1 <= days2 ->
  GetDailyMetrics ms team days1 = Ok metrics1 ->
  GetDailyMetrics ms team days2 = Ok metrics2 ->
  SUM (map DailyMetrics.Deployments metrics1)
  <= SUM (map DailyMetrics.Deployments metrics2).
Proof.
  intros Hle H1 H2.
  rewrite (GetDailyMetrics_sum _ _ _ _ H1), (GetDailyMetrics_sum _ _ _ _ H2).
  apply COUNT_filter_mono. intros r _ Hr.
  apply andb_true_iff in Hr as [Ht Hw]. apply andb_true_iff. split; [exact Ht|].
  apply Z.leb_le in Hw. apply Z.leb_le.
  unfold window_start, midnight, usec_per_day in *. lia.
Qed.

Lemma GetDailyMetrics_window_grows_witness :
  SUM (map DailyMetrics.Deployments
         [DailyMetrics.mk "2024-01-01" "alpha" 2 2 15])
  <= SUM (map DailyMetrics.Deployments
            [ DailyMetrics.mk "2024-01-01" "alpha" 2 2 15;
              DailyMetrics.mk "2023-12-31" "alpha" 1 0 30 ]).
Proof.
  apply (GetDailyMetrics_window_grows sample_service "alpha" 0 30).
  - discriminate.
  - vm_compute. reflexivity.
  - vm_compute. reflexivity.
Defined.
